(** * pdf_repair.py: the per-page repair pipeline, embedded and verified

    A shallow embedding of [src/pdf_repair.py].  The script drives two
    external libraries (PyMuPDF and pytesseract) and the file system; what
    those answer is not in the script, so every call into them is an oracle
    of the model: a field of a page, of the engine or of the world, whose
    value is either a result or a raised exception.  The script's own
    control flow (the [try]/[except] nesting, the order of the calls, the
    mutation of the report and of the output document) is translated line
    by line into a state-and-exception monad.

    Not modelled: the ["time"] field of report entries and the console
    output of [print] (neither influences control flow), and exceptions
    raised by [close()] or by the bookkeeping calls themselves.  Indexing
    the output document when it has no page is taken to raise, as indexing
    an empty Python sequence does.

    The answers of the file system are fixed per path: what the run has
    written or removed is recorded, in order, but is not fed back into
    the answers of later calls.  The statements below are about one run
    and name the answers they depend on. *)

From Stdlib Require Import ZArith NArith String List Sorted Lia.
From stdpp Require Import base option list strings gmap.

Local Open Scope string_scope.
Local Open Scope list_scope.

(** ** Python values *)

(** An exception is identified with [str(e)], the only thing the script
    ever does with one. *)
Abbreviation exn := string.

Inductive result (A : Type) : Type :=
| Ok (a : A)
| Raise (e : exn).
Arguments Ok {A} a.
Arguments Raise {A} e.

#[global] Instance result_ret : MRet result := fun _ a => Ok a.
#[global] Instance result_bind : MBind result := fun _ _ f r =>
  match r with Ok a => f a | Raise e => Raise e end.

(** [try: body / except Exception as e: handler(e)] on a pure computation. *)
Definition try_except {A} (body : result A) (handler : exn -> result A) : result A :=
  match body with Ok a => Ok a | Raise e => handler e end.

(** A Python [str] is a sequence of code points; [len] is [length]. *)
Abbreviation pystr := (list N).
Abbreviation bytes := (list Byte.byte).

Definition str (s : string) : pystr :=
  map (fun a => N.of_nat (Ascii.nat_of_ascii a)) (list_ascii_of_string s).

(** The characters removed by [str.strip()] with no argument: the code
    points for which [str.isspace] holds. *)
Definition isspace (c : N) : bool :=
  ((9 <=? c) && (c <=? 13) || (28 <=? c) && (c <=? 32)
   || (c =? 133) || (c =? 160) || (c =? 5760)
   || (8192 <=? c) && (c <=? 8202)
   || (c =? 8232) || (c =? 8233) || (c =? 8239) || (c =? 8287) || (c =? 12288))%N.

Fixpoint lstrip (s : pystr) : pystr :=
  match s with
  | c :: s' => if isspace c then lstrip s' else s
  | [] => []
  end.

Definition rstrip (s : pystr) : pystr := rev (lstrip (rev s)).
Definition strip (s : pystr) : pystr := rstrip (lstrip s).

(** Truth value of a [str]: the empty string is falsy. *)
Definition truthy (s : pystr) : bool :=
  match s with [] => false | _ :: _ => true end.

(** [x or d] where [x] is a [str]. *)
Definition str_or (x d : pystr) : pystr := if truthy x then x else d.

(** [x or d] where [x] may be [None]. *)
Definition opt_or (x : option pystr) (d : pystr) : pystr :=
  match x with Some s => str_or s d | None => d end.

(** [x or y], both possibly [None], the result again possibly [None]. *)
Definition opt_or_opt (x y : option pystr) : option pystr :=
  match x with
  | Some s => if truthy s then Some s else y
  | None => y
  end.

(** ** The external collaborators *)

(** [fitz.Pixmap]: what [page.get_pixmap(matrix=..., alpha=False)] returns. *)
Record Pixmap := {
  pix_width : Z;
  pix_height : Z;
  tobytes_png : result bytes            (* pix.tobytes("png") *)
}.

(** A page of the source document, seen through the calls the script makes
    on it. *)
Record Page := {
  get_text : result pystr;               (* page.get_text("text") *)
  get_pixmap : Z -> result Pixmap;       (* rasterisation, keyed by the dpi *)
  insert_copy : result unit;             (* new_doc.insert_pdf(src_doc, from_page=i, to_page=i) *)
  get_images : result (list N)           (* xrefs of page.get_images(full=True) *)
}.

(** The document [fitz.open("pdf", pdf_bytes)] builds from Tesseract's
    output: the text layer of each of its pages ("usually one"), and
    whether [new_doc.insert_pdf(temp_pdf)] goes through. *)
Record TempDoc := {
  temp_pages : list (result pystr);
  temp_insert : result unit
}.

(** A page of the output document.  The first component is a ghost tag:
    the 0-based index of the source page whose iteration appended it. *)
Inductive OutPage :=
| Copied (i : nat) (p : Page)                           (* the source page itself *)
| OcrPage (i : nat) (txt : result pystr)                (* a page of [temp_pdf] *)
| NewPage (i : nat) (w h : Z) (img : option bytes).     (* [new_page], then maybe an image *)

Definition origin (q : OutPage) : nat :=
  match q with Copied i _ | OcrPage i _ | NewPage i _ _ _ => i end.

(** [get_text("text")] on an output page.  A copy answers as its source
    does; a page made by [new_page] holds at most an image, hence no text. *)
Definition out_get_text (q : OutPage) : result pystr :=
  match q with
  | Copied _ p => get_text p
  | OcrPage _ txt => txt
  | NewPage _ _ _ _ => Ok []
  end.

(** Document metadata, a [dict] whose values are [str] or [None]. *)
Abbreviation metadict := (gmap string (option pystr)).

(** [d.get(k)]: [None] when the key is missing (or holds [None]). *)
Definition dict_get (d : metadict) (k : string) : option pystr :=
  match d !! k with Some v => v | None => None end.

(** An opened source document. *)
Record SrcDoc := {
  doc_pages : list (result Page);                        (* src_doc[i] for i in range(len(src_doc)) *)
  metadata : result (option metadict);                   (* doc.metadata *)
  extract_image : N -> result (bytes * option string)    (* base_image["image"], base_image.get("ext") *)
}.

(** Paths are kept symbolic: the script only derives them and hands them
    to the file system. *)
Inductive Path :=
| PathOf (s : string)                                    (* Path(s) *)
| Parent (p : Path)                                      (* p.parent *)
| Resaved (p : Path)                                     (* stem + ".resaved" + suffix *)
| BackupOf (p : Path) (stamp : string)                   (* stem + ".backup.<stamp>" + suffix *)
| Repaired (p : Path)                                    (* stem + ".repaired" + suffix *)
| ReportOf (p : Path)                                    (* stem + ".repair_report.json" *)
| ImageFile (dir : Path) (page img : nat) (ext : string). (* dir / f"page{page}_img{img}.{ext}" *)

(** PyMuPDF, Pillow and pytesseract. *)
Record Engine := {
  pytesseract : bool;                                    (* the module was imported (else it is None) *)
  image_open : bytes -> result bytes;                    (* Image.open(io.BytesIO(b)).convert("RGB") *)
  image_to_pdf : bytes -> string -> result bytes;        (* pytesseract.image_to_pdf_or_hocr(img, 'pdf', lang) *)
  open_stream : bytes -> result TempDoc;                 (* fitz.open("pdf", pdf_bytes) *)
  new_page : Z -> Z -> result unit;                      (* new_doc.new_page(width=, height=) *)
  document_insert_image : result (bytes -> result unit); (* looking up new_doc.insert_image (line 243), then calling it *)
  page_insert_image : bytes -> result unit;              (* new_page.insert_image(new_page.rect, stream=) *)
  set_metadata : gmap string pystr -> result unit;       (* new_doc.set_metadata(meta_fixed) *)
  save_document : Path -> result unit;                   (* doc.save(str(repaired), garbage=4, deflate=True) *)
  save_output : list OutPage -> Path -> result unit;     (* new_doc.save(str(output_pdf_path), ...) *)
  no_last_page : exn                                     (* what new_doc[-1] raises when there is no page *)
}.

(** The file system, pathlib and the clock. *)
Record World := {
  engine : Engine;
  path_exists : Path -> bool;
  empty_name : Path -> option exn;                       (* p.name is empty: the ValueError of p.with_name, p.with_suffix *)
  utc_stamp : string;                                    (* utcnow().strftime("%Y%m%d%H%M%S") *)
  copy2 : Path -> Path -> result unit;                   (* shutil.copy2 *)
  fitz_open : Path -> result SrcDoc;                     (* fitz.open(str(path)) *)
  mkdir : Path -> result unit;                           (* mkdir(parents=True, exist_ok=True) *)
  write_file : Path -> bytes -> result unit;             (* open(fname, "wb"), f.write *)
  write_json : Path -> result unit;                      (* open(path, "w"), json.dump *)
  unlink : Path -> result unit;
  stem : Path -> pystr                                   (* path.stem *)
}.

(** ** The repair report *)

(** The messages of [add_action] and [add_error], one constructor per
    f-string of the script. *)
Inductive Msg :=
| SavedReport (p : Path)                  (* "Saved JSON report to {path}" *)
| BackedUp (dst : Path)                   (* "Backed up original to {dst}" *)
| BackupFailed (e : exn)                  (* "Backup failed: {e}" *)
| AttemptingResave                        (* "Attempting simple PyMuPDF open+save repair." *)
| OriginalMetadata (m : option metadict)  (* "Original metadata: {meta}" *)
| SavedIntermediate (p : Path)            (* "Saved intermediate repaired PDF to {repaired}" *)
| ResaveFailed (e : exn)                  (* "Simple resave failed: {e}" *)
| ProceedingWithOriginal                  (* "Proceeding with original input due to resave failure." *)
| ExtractingImages (dir : Path)           (* "Extracting images to {out_dir}" *)
| ExtractedImage (f : Path)               (* "Extracted image to {fname}" *)
| TotalExtracted (n : nat)                (* "Total images extracted: {len(saved)}" *)
| ImageExtractionFailed (e : exn)         (* "Image extraction failed: {e}" *)
| OpeningSource (p : Path)                (* "Opening source PDF {input_pdf_path}" *)
| SourceHasPages (n : nat)                (* "Source has {len(src_doc)} pages" *)
| PageCopied (n : nat)                    (* "Page {i+1}: copied (has text)" *)
| PageNoText (n : nat)                    (* "Page {i+1}: no text detected" *)
| PageOcrApplied (n : nat) (dpi : Z)      (* "Page {i+1}: OCR applied and page inserted (dpi={dpi})" *)
| PageOcrFailed (n : nat) (e : exn)       (* "Page {i+1} OCR failed: {e}" *)
| PageFallbackUsed (n : nat)              (* "Page {i+1}: fallback image-insert used" *)
| PageFallbackFailed (n : nat) (e : exn)  (* "Page {i+1} fallback image insert failed: {e2}" *)
| PageImageInserted (n : nat)             (* "Page {i+1}: inserted as image (no OCR mode)" *)
| PageImageFailed (n : nat) (e : exn)     (* "Page {i+1} image insertion failed: {e}" *)
| PageRemovedBlank (n : nat)              (* "Page {i+1}: removed blank page after processing" *)
| PageProcessingFailed (n : nat) (e : exn) (* "Processing page {i+1} failed: {e}" *)
| CopyingMetadata (m : metadict)          (* "Copying metadata: {meta}" *)
| SetMetadataFailed (e : exn)             (* "Failed to set metadata on final doc: {e}" *)
| SavedFinal (p : Path)                   (* "Saved final repaired PDF to {output_pdf_path}" *)
| SaveFinalFailed (e : exn)               (* "Failed saving final PDF: {e}" *)
| OverallFailed (e : exn).                (* "Overall repair failed: {e}" *)

Inductive PageAction := copied | no_text.

(** The value stored under ["ocr"]: ["applied"] or [f"failed: {e}"]. *)
Inductive OcrStatus := applied | failed (e : exn).

(** The [page_info] dict.  Its keys are fixed literals; a key the script
    has not set is [None], or [false] for the keys only ever set to [True]. *)
Record PageInfo := {
  page_index : nat;
  action : option PageAction;
  text_chars : option nat;
  ocr : option OcrStatus;
  fallback_image_inserted : bool;
  fallback_error : option exn;
  image_inserted : bool;
  image_error : option exn;
  removed_blank : bool
}.

Definition new_page_info (n : nat) : PageInfo :=
  {| page_index := n; action := None; text_chars := None; ocr := None;
     fallback_image_inserted := false; fallback_error := None;
     image_inserted := false; image_error := None; removed_blank := false |}.

Definition set_action (a : PageAction) (r : PageInfo) : PageInfo :=
  {| page_index := page_index r; action := Some a; text_chars := text_chars r; ocr := ocr r;
     fallback_image_inserted := fallback_image_inserted r; fallback_error := fallback_error r;
     image_inserted := image_inserted r; image_error := image_error r;
     removed_blank := removed_blank r |}.

Definition set_text_chars (n : nat) (r : PageInfo) : PageInfo :=
  {| page_index := page_index r; action := action r; text_chars := Some n; ocr := ocr r;
     fallback_image_inserted := fallback_image_inserted r; fallback_error := fallback_error r;
     image_inserted := image_inserted r; image_error := image_error r;
     removed_blank := removed_blank r |}.

Definition set_ocr (o : OcrStatus) (r : PageInfo) : PageInfo :=
  {| page_index := page_index r; action := action r; text_chars := text_chars r; ocr := Some o;
     fallback_image_inserted := fallback_image_inserted r; fallback_error := fallback_error r;
     image_inserted := image_inserted r; image_error := image_error r;
     removed_blank := removed_blank r |}.

Definition set_fallback_image_inserted (r : PageInfo) : PageInfo :=
  {| page_index := page_index r; action := action r; text_chars := text_chars r; ocr := ocr r;
     fallback_image_inserted := true; fallback_error := fallback_error r;
     image_inserted := image_inserted r; image_error := image_error r;
     removed_blank := removed_blank r |}.

Definition set_fallback_error (e : exn) (r : PageInfo) : PageInfo :=
  {| page_index := page_index r; action := action r; text_chars := text_chars r; ocr := ocr r;
     fallback_image_inserted := fallback_image_inserted r; fallback_error := Some e;
     image_inserted := image_inserted r; image_error := image_error r;
     removed_blank := removed_blank r |}.

Definition set_image_inserted (r : PageInfo) : PageInfo :=
  {| page_index := page_index r; action := action r; text_chars := text_chars r; ocr := ocr r;
     fallback_image_inserted := fallback_image_inserted r; fallback_error := fallback_error r;
     image_inserted := true; image_error := image_error r;
     removed_blank := removed_blank r |}.

Definition set_image_error (e : exn) (r : PageInfo) : PageInfo :=
  {| page_index := page_index r; action := action r; text_chars := text_chars r; ocr := ocr r;
     fallback_image_inserted := fallback_image_inserted r; fallback_error := fallback_error r;
     image_inserted := image_inserted r; image_error := Some e;
     removed_blank := removed_blank r |}.

Definition set_removed_blank (r : PageInfo) : PageInfo :=
  {| page_index := page_index r; action := action r; text_chars := text_chars r; ocr := ocr r;
     fallback_image_inserted := fallback_image_inserted r; fallback_error := fallback_error r;
     image_inserted := image_inserted r; image_error := image_error r;
     removed_blank := true |}.

(** [RepairReport.data]; an entry of ["pages"] is [{"page": n, **entry}]. *)
Record Report := {
  input_path : Path;
  actions : list Msg;
  errors : list Msg;
  pages : list (nat * PageInfo)
}.

(** What the run does to a path on disk: it writes a file there, or it
    removes the file that is there. *)
Inductive File :=
| ReportJson (r : Report)                                   (* json.dump(self.data, f) *)
| CopyOf (src : Path)                                       (* shutil.copy2 *)
| ResaveOf (src : Path)                                     (* the intermediate document *)
| ImageBytes (b : bytes)                                    (* an extracted image *)
| OutputPdf (pages : list OutPage) (meta : option (gmap string pystr))
| Removed.                                                  (* unlink(): the file is gone *)

(** The mutable state of a run: the report, the output document under
    construction ([out_meta] is [None] until [set_metadata] succeeds) and
    what the run did to the disk so far, oldest first. *)
Record St := {
  report : Report;
  new_doc : list OutPage;
  out_meta : option (gmap string pystr);
  disk : list (Path * File)
}.

(** ** Statements that mutate the state and may raise *)

(** A mutation done before an exception is raised stays done, so a
    computation returns its state in both cases. *)
Definition M (A : Type) : Type := St -> result A * St.

#[global] Instance M_ret : MRet M := fun _ a s => (Ok a, s).
#[global] Instance M_bind : MBind M := fun _ _ f m s =>
  match m s with
  | (Ok a, s') => f a s'
  | (Raise e, s') => (Raise e, s')
  end.

(** [raise] *)
Definition throw {A} (e : exn) : M A := fun s => (Raise e, s).

(** A call into a collaborator: the oracle's answer, the state untouched. *)
Definition call {A} (r : result A) : M A := fun s => (r, s).

(** [try: body / except Exception as e: handler(e)] *)
Definition try_catch {A} (body : M A) (handler : exn -> M A) : M A := fun s =>
  match body s with
  | (Ok a, s') => (Ok a, s')
  | (Raise e, s') => handler e s'
  end.

Definition modify (f : St -> St) : M unit := fun s => (Ok tt, f s).

Definition with_report (f : Report -> Report) (s : St) : St :=
  {| report := f (report s); new_doc := new_doc s; out_meta := out_meta s; disk := disk s |}.

Definition with_new_doc (f : list OutPage -> list OutPage) (s : St) : St :=
  {| report := report s; new_doc := f (new_doc s); out_meta := out_meta s; disk := disk s |}.

Definition with_out_meta (m : gmap string pystr) (s : St) : St :=
  {| report := report s; new_doc := new_doc s; out_meta := Some m; disk := disk s |}.

Definition with_file (p : Path) (f : St -> File) (s : St) : St :=
  {| report := report s; new_doc := new_doc s; out_meta := out_meta s;
     disk := disk s ++ [(p, f s)] |}.

(** *** class RepairReport *)

Definition new_report (input : Path) : Report :=
  {| input_path := input; actions := []; errors := []; pages := [] |}.

Definition add_action (msg : Msg) : M unit :=
  modify (with_report (fun r =>
    {| input_path := input_path r; actions := actions r ++ [msg];
       errors := errors r; pages := pages r |})).

Definition add_error (msg : Msg) : M unit :=
  modify (with_report (fun r =>
    {| input_path := input_path r; actions := actions r;
       errors := errors r ++ [msg]; pages := pages r |})).

Definition add_page_entry (page_num : nat) (entry : PageInfo) : M unit :=
  modify (with_report (fun r =>
    {| input_path := input_path r; actions := actions r;
       errors := errors r; pages := pages r ++ [(page_num, entry)] |})).

(** *** The output document *)

(** [new_doc.insert_pdf(...)], [new_doc.new_page(...)]: pages go to the end. *)
Definition doc_append (qs : list OutPage) : M unit :=
  modify (with_new_doc (fun d => d ++ qs)).

(** The image lands on the page [new_page] has just made, the last one. *)
Definition place_image (png : bytes) (d : list OutPage) : list OutPage :=
  match last d with
  | Some (NewPage i w h _) => removelast d ++ [NewPage i w h (Some png)]
  | _ => d
  end.

Section Script.

Variable w : World.
Let eng := engine w.

(** [new_doc[-1]] *)
Definition doc_last : M OutPage := fun s =>
  match last (new_doc s) with
  | Some q => (Ok q, s)
  | None => (Raise (no_last_page eng), s)
  end.

(** [new_doc.delete_page(-1)] *)
Definition doc_delete_last : M unit := fun s =>
  match new_doc s with
  | [] => (Raise (no_last_page eng), s)
  | _ :: _ => (Ok tt, with_new_doc (@removelast _) s)
  end.

Definition report_save (path : Path) : M unit :=
  try_catch
    (call (write_json w path);;
     modify (with_file path (fun s => ReportJson (report s)));;
     add_action (SavedReport path))
    (fun e => mret tt).                        (* print("Failed saving report:", e) *)

(** *** Utilities *)

(** [p.with_name(...)] and [p.with_suffix(...)]: pathlib raises
    [ValueError] when [p] has an empty name, as [Path(".")] has; otherwise
    the call gives the derived path. *)
Definition renamed (p derived : Path) : result Path :=
  match empty_name w p with
  | Some e => Raise e
  | None => Ok derived
  end.

Definition backup_file (src : Path) : M Path :=
  dst ← call (renamed src (BackupOf src (utc_stamp w)));
  call (copy2 w src dst);;
  modify (with_file dst (fun _ => CopyOf src));;
  add_action (BackedUp dst);;
  mret dst.

Definition ensure_output_parent (path : Path) : M unit :=
  call (mkdir w (Parent path)).

(** *** Core functions *)

(** Line 116 derives the path of the intermediate file before the [try]
    of line 117 is entered. *)
Definition try_simple_repair (input_path : Path) : M Path :=
  add_action AttemptingResave;;
  repaired ← call (renamed input_path (Resaved input_path));
  try_catch
    (doc ← call (fitz_open w input_path);
     meta ← call (metadata doc);
     add_action (OriginalMetadata meta);;
     call (save_document eng repaired);;
     modify (with_file repaired (fun _ => ResaveOf input_path));;
     add_action (SavedIntermediate repaired);;
     mret repaired)
    (fun e =>
     add_error (ResaveFailed e);;
     (if path_exists w repaired
      then try_catch (call (unlink w repaired);;
                      modify (with_file repaired (fun _ => Removed)))
                     (fun _ => mret tt)
      else mret tt);;
     throw e).

(** The inner loop of [extract_images_from_doc], over the images of page
    [i]; [acc] is [(img_index, saved)]. *)
Fixpoint extract_page_images (doc : SrcDoc) (out_dir : Path) (i : nat)
    (image_list : list N) (acc : nat * list Path) : M (nat * list Path) :=
  match image_list with
  | [] => mret acc
  | xref :: rest =>
      '(image_bytes, ext_opt) ← call (extract_image doc xref);
      let ext := default "png" ext_opt in
      let fname := ImageFile out_dir (i + 1) (fst acc) ext in
      call (write_file w fname image_bytes);;
      modify (with_file fname (fun _ => ImageBytes image_bytes));;
      add_action (ExtractedImage fname);;
      extract_page_images doc out_dir i rest (S (fst acc), snd acc ++ [fname])
  end.

Fixpoint extract_images_loop (doc : SrcDoc) (out_dir : Path) (i : nat)
    (slots : list (result Page)) (acc : nat * list Path) : M (nat * list Path) :=
  match slots with
  | [] => mret acc
  | slot :: rest =>
      page ← call slot;
      image_list ← call (get_images page);
      acc' ← extract_page_images doc out_dir i image_list acc;
      extract_images_loop doc out_dir (S i) rest acc'
  end.

Definition extract_images_from_doc (doc : SrcDoc) (out_dir : Path) : M (list Path) :=
  call (mkdir w out_dir);;
  add_action (ExtractingImages out_dir);;
  acc ← extract_images_loop doc out_dir 0 (doc_pages doc) (0, []);
  add_action (TotalExtracted (length (snd acc)));;
  mret (snd acc).

Definition page_has_text (page : Page) : result bool :=
  try_except
    (txt ← get_text page;
     if truthy txt && truthy (strip txt) then mret true else mret false)
    (fun _ => mret false).

Definition ocr_page_to_pdf_bytes (page : Page) (dpi : Z) (lang : string) : result bytes :=
  if negb (pytesseract eng) then Raise "pytesseract not available for OCR fallback"
  else
    pix ← get_pixmap page dpi;
    img_bytes ← tobytes_png pix;
    img ← image_open eng img_bytes;
    image_to_pdf eng img lang.

(** *** build_repaired_pdf: one iteration of the page loop *)

Section PageLoop.

Variables (use_ocr : bool) (dpi : Z) (remove_blank : bool) (ocr_lang : string).

(** Lines 219-224, the branch taken when [text_ok]. *)
Definition copy_page (i : nat) (page : Page) (page_info : PageInfo) : M PageInfo :=
  call (insert_copy page);;
  doc_append [Copied i page];;
  let page_info := set_action copied page_info in
  txt ← call (get_text page);
  let page_info := set_text_chars (length (str_or txt [])) page_info in
  add_action (PageCopied (i + 1));;
  mret page_info.

(** Lines 240-249, the fallback inside the handler of a failed OCR.  In
    [new_doc.insert_image(new_doc.new_page(...).rect, stream=pix.tobytes("png"))]
    Python first looks the method up, then evaluates the arguments from
    left to right, then calls. *)
Definition fallback_image (i : nat) (page : Page) (page_info : PageInfo) : M PageInfo :=
  try_catch
    (pix ← call (get_pixmap page dpi);
     insert_image ← call (document_insert_image eng);
     call (new_page eng (pix_width pix) (pix_height pix));;
     doc_append [NewPage i (pix_width pix) (pix_height pix) None];;
     png ← call (tobytes_png pix);
     call (insert_image png);;
     modify (with_new_doc (place_image png));;
     let page_info := set_fallback_image_inserted page_info in
     add_action (PageFallbackUsed (i + 1));;
     mret page_info)
    (fun e2 =>
     let page_info := set_fallback_error e2 page_info in
     add_error (PageFallbackFailed (i + 1) e2);;
     mret page_info).

(** Lines 229-249. *)
Definition ocr_page (i : nat) (page : Page) (page_info : PageInfo) : M PageInfo :=
  try_catch
    (pdf_bytes ← call (ocr_page_to_pdf_bytes page dpi ocr_lang);
     temp_pdf ← call (open_stream eng pdf_bytes);
     call (temp_insert temp_pdf);;
     doc_append (map (OcrPage i) (temp_pages temp_pdf));;
     let page_info := set_ocr applied page_info in
     add_action (PageOcrApplied (i + 1) dpi);;
     mret page_info)
    (fun e =>
     let page_info := set_ocr (failed e) page_info in
     add_error (PageOcrFailed (i + 1) e);;
     fallback_image i page page_info).

(** Lines 252-261, no OCR: the page goes in as an image. *)
Definition image_page (i : nat) (page : Page) (page_info : PageInfo) : M PageInfo :=
  try_catch
    (pix ← call (get_pixmap page dpi);
     call (new_page eng (pix_width pix) (pix_height pix));;
     doc_append [NewPage i (pix_width pix) (pix_height pix) None];;
     png ← call (tobytes_png pix);
     call (page_insert_image eng png);;
     modify (with_new_doc (place_image png));;
     let page_info := set_image_inserted page_info in
     add_action (PageImageInserted (i + 1));;
     mret page_info)
    (fun e =>
     let page_info := set_image_error e page_info in
     add_error (PageImageFailed (i + 1) e);;
     mret page_info).

(** Lines 218-261: classify, then copy or reconstruct. *)
Definition insert_page (i : nat) (page : Page) (page_info : PageInfo) : M PageInfo :=
  text_ok ← call (page_has_text page);
  if (text_ok : bool) then copy_page i page page_info
  else
    let page_info := set_action no_text page_info in
    add_action (PageNoText (i + 1));;
    if use_ocr then ocr_page i page page_info else image_page i page page_info.

(** Lines 265-275.  [new_doc[-1]] is evaluated before the [try]. *)
Definition prune_last (i : nat) (page_info : PageInfo) : M PageInfo :=
  last_page ← doc_last;
  try_catch
    (txt ← call (out_get_text last_page);
     let last_text := str_or txt [] in
     if negb (truthy (strip last_text)) then
       doc_delete_last;;
       let page_info := set_removed_blank page_info in
       add_action (PageRemovedBlank (i + 1));;
       mret page_info
     else mret page_info)
    (fun _ => mret page_info).

(** Lines 216-275: what happens to the page, up to the recording. *)
Definition page_outcome (i : nat) (slot : result Page) : M PageInfo :=
  page ← call slot;
  let page_info := new_page_info (i + 1) in
  page_info ← insert_page i page page_info;
  if remove_blank then prune_last i page_info else mret page_info.

(** Lines 216-278, the body of the outer [try]. *)
Definition page_body (i : nat) (slot : result Page) : M unit :=
  page_info ← page_outcome i slot;
  add_page_entry (i + 1) page_info.

(** Lines 215-282. *)
Definition process_page (i : nat) (slot : result Page) : M unit :=
  try_catch (page_body i slot)
    (fun e => add_error (PageProcessingFailed (i + 1) e)).

(** [for i in range(len(src_doc))], from index [i] on. *)
Fixpoint page_loop (i : nat) (slots : list (result Page)) : M unit :=
  match slots with
  | [] => mret tt
  | slot :: rest => process_page i slot;; page_loop (S i) rest
  end.

End PageLoop.

(** *** build_repaired_pdf: metadata, saving *)

(** Lines 289-296. *)
Definition meta_fixed (meta : metadict) (input_pdf_path : Path) : gmap string pystr :=
  <["title" := opt_or (dict_get meta "title") (stem w input_pdf_path ++ str " (repaired)")]>
  (<["author" := opt_or (dict_get meta "author") (str "RepairedByScript")]>
  (<["subject" := opt_or (dict_get meta "subject") []]>
  (<["keywords" := opt_or (dict_get meta "keywords") []]>
  (<["creator" := opt_or (opt_or_opt (dict_get meta "creator") (dict_get meta "producer"))
                         (str "pdf_repair.py")]>
  (<["producer" := opt_or (opt_or_opt (dict_get meta "producer") (dict_get meta "creator")) []]>
   ∅))))).

(** Lines 285-299. *)
Definition merge_metadata (src_doc : SrcDoc) (input_pdf_path : Path) : M unit :=
  try_catch
    (m ← call (metadata src_doc);
     let meta := default ∅ m in                        (* src_doc.metadata or {} *)
     add_action (CopyingMetadata meta);;
     let fixed := meta_fixed meta input_pdf_path in
     call (set_metadata eng fixed);;
     modify (with_out_meta fixed))
    (fun e => add_error (SetMetadataFailed e)).

(** Lines 302-312; the [finally] clause only closes the two documents. *)
Definition save_final (output_pdf_path : Path) : M unit :=
  try_catch
    (ensure_output_parent output_pdf_path;;
     d ← (fun s => (Ok (new_doc s), s));
     call (save_output eng d output_pdf_path);;
     modify (with_file output_pdf_path (fun s => OutputPdf (new_doc s) (out_meta s)));;
     add_action (SavedFinal output_pdf_path))
    (fun e => add_error (SaveFinalFailed e);; throw e).

(** [new_doc = fitz.open()] *)
Definition fresh_document (s : St) : St :=
  {| report := report s; new_doc := []; out_meta := None; disk := disk s |}.

Definition build_repaired_pdf (input_pdf_path output_pdf_path : Path) (use_ocr : bool)
    (dpi : Z) (extract_images : bool) (out_images_dir : Path) (remove_blank : bool)
    (ocr_lang : string) : M unit :=
  add_action (OpeningSource input_pdf_path);;
  src_doc ← call (fitz_open w input_pdf_path);
  add_action (SourceHasPages (length (doc_pages src_doc)));;
  (if extract_images
   then try_catch (extract_images_from_doc src_doc out_images_dir;; mret tt)
                  (fun e => add_error (ImageExtractionFailed e))
   else mret tt);;
  modify fresh_document;;
  page_loop use_ocr dpi remove_blank ocr_lang 0 (doc_pages src_doc);;
  merge_metadata src_doc input_pdf_path;;
  save_final output_pdf_path.

(** *** CLI *)

Record Args := {
  arg_input : string;
  arg_output : option string;
  arg_ocr : bool;
  arg_dpi : Z;
  arg_extract_images : option string;
  arg_remove_blank : bool;
  arg_ocr_lang : string;
  arg_report : option string
}.

(** [Path(a) if a else None]: an empty string is falsy like [None]. *)
Definition path_if_given (a : option string) : option Path :=
  match a with
  | Some s => if String.eqb s "" then None else Some (PathOf s)
  | None => None
  end.

(** Line 336: [Path(args.output) if args.output else inp.with_name(...)]. *)
Definition output_path (args : Args) : result Path :=
  let inp := PathOf (arg_input args) in
  match path_if_given (arg_output args) with
  | Some p => Ok p
  | None => renamed inp (Repaired inp)
  end.

(** Line 337: [Path(args.report) if args.report else inp.with_suffix(...)]. *)
Definition report_path (args : Args) : result Path :=
  let inp := PathOf (arg_input args) in
  match path_if_given (arg_report args) with
  | Some p => Ok p
  | None => renamed inp (ReportOf inp)
  end.

(** Lines 346-368 of [main]: resave, rebuild, flush the report. *)
Definition repair_pipeline (args : Args) (out report_path : Path) : M unit :=
  let inp := PathOf (arg_input args) in
  working_input ← try_catch (try_simple_repair inp)
                    (fun _ => add_action ProceedingWithOriginal;; mret inp);
  try_catch
    (let out_images_dir := path_if_given (arg_extract_images args) in
     build_repaired_pdf working_input out (arg_ocr args) (arg_dpi args)
       (bool_decide (is_Some out_images_dir)) (default (PathOf ".") out_images_dir)
       (arg_remove_blank args) (arg_ocr_lang args))
    (fun e => add_error (OverallFailed e));;
  try_catch (report_save report_path) (fun _ => mret tt).

(** Lines 338-368 of [main], once the two paths are there. *)
Definition run_repair (args : Args) (out report_path : Path) : M unit :=
  let inp := PathOf (arg_input args) in
  try_catch (backup_file inp;; mret tt) (fun e => add_error (BackupFailed e));;
  repair_pipeline args out report_path.

Definition initial_state (args : Args) : St :=
  {| report := new_report (PathOf (arg_input args)); new_doc := []; out_meta := None; disk := [] |}.

(** How the process ends: [sys.exit(2)]; an exception escaping lines
    336-337, which no [try] encloses, before the report exists; or falling
    off the end of [main] (or an exception escaping it) in some final
    state. *)
Inductive Outcome :=
| SysExit (code : Z)
| Crashed (e : exn)
| Ran (r : result unit) (s : St).

Definition main (args : Args) : Outcome :=
  if negb (path_exists w (PathOf (arg_input args))) then SysExit 2
  else
    match output_path args with
    | Raise e => Crashed e
    | Ok out =>
        match report_path args with
        | Raise e => Crashed e
        | Ok report_path =>
            let '(r, s) := run_repair args out report_path (initial_state args) in Ran r s
        end
    end.

End Script.

(** ** Vocabulary of the statements *)

(** A statement returns when it never lets an exception escape. *)
Definition returns {A} (m : M A) : Prop :=
  forall s, exists a s', m s = (Ok a, s').

(** A statement keeps a preorder on states when every run of it, whether
    it returns or raises, ends in a state related to the one it started
    in. *)
Definition keeps (R : relation St) {A} (m : M A) : Prop :=
  forall s, R s (m s).2.

(** The errors logged by the handler of the outer [try] of the page loop. *)
Definition is_processing_failure (m : Msg) : bool :=
  match m with PageProcessingFailed _ _ => true | _ => false end.

Fixpoint processing_failures (errs : list Msg) : nat :=
  match errs with
  | [] => 0
  | m :: rest => (if is_processing_failure m then 1 else 0) + processing_failures rest
  end.

(** Neither a page entry nor a processing failure was recorded. *)
Definition quiet (s s' : St) : Prop :=
  pages (report s') = pages (report s) /\
  processing_failures (errors (report s')) = processing_failures (errors (report s)).

(** The report and the record of what was done to the disk only grow. *)
Definition log_extends (s s' : St) : Prop :=
  input_path (report s') = input_path (report s) /\
  actions (report s) `prefix_of` actions (report s') /\
  errors (report s) `prefix_of` errors (report s') /\
  pages (report s) `prefix_of` pages (report s') /\
  disk s `prefix_of` disk s'.

(** Output pages are in source order: along the document the tags never
    decrease. *)
Definition in_source_order (d : list OutPage) : Prop :=
  forall a b qa qb, a < b -> d !! a = Some qa -> d !! b = Some qb -> origin qa <= origin qb.

(** In source order, and made of pages of the first [n] source pages. *)
Definition ordered_below (n : nat) (d : list OutPage) : Prop :=
  in_source_order d /\ Forall (fun q => origin q < n) d.

(** The OCR attempt of lines 230-233, as the answers of its calls in the
    order the script makes them. *)
Definition ocr_attempt (w : World) (page : Page) (dpi : Z) (lang : string) : result TempDoc :=
  pdf_bytes ← ocr_page_to_pdf_bytes w page dpi lang;
  temp_pdf ← open_stream (engine w) pdf_bytes;
  temp_insert temp_pdf;;
  mret temp_pdf.

(** How the fallback insertion of lines 241-243 goes. *)
Inductive Fallback :=
| Inserted (pix : Pixmap) (png : bytes)       (* every call went through *)
| FailedBeforePage (e : exn)                  (* nothing was appended yet *)
| FailedAfterPage (pix : Pixmap) (e : exn).   (* [new_page] had already returned *)

Definition fallback_answers (w : World) (page : Page) (dpi : Z) : Fallback :=
  match get_pixmap page dpi with
  | Raise e => FailedBeforePage e
  | Ok pix =>
      match document_insert_image (engine w) with
      | Raise e => FailedBeforePage e
      | Ok insert_image =>
          match new_page (engine w) (pix_width pix) (pix_height pix) with
          | Raise e => FailedBeforePage e
          | Ok _ =>
              match tobytes_png pix with
              | Raise e => FailedAfterPage pix e
              | Ok png =>
                  match insert_image png with
                  | Raise e => FailedAfterPage pix e
                  | Ok _ => Inserted pix png
                  end
              end
          end
      end
  end.

(** The keys of [meta_fixed]. *)
Definition metadata_keys : list string :=
  ["title"; "author"; "subject"; "keywords"; "creator"; "producer"].

(** The original value of a key, [""] when it has none. *)
Definition original (meta : metadict) (k : string) : pystr :=
  default [] (dict_get meta k).

(** What a key may be resolved from, in order of preference: its original
    value, the original value of its alternate key, the generated default.
    An empty string is no source. *)
Definition sources (w : World) (meta : metadict) (input_pdf_path : Path) (k : string)
    : list pystr :=
  match k with
  | "title" => [original meta "title"; stem w input_pdf_path ++ str " (repaired)"]
  | "author" => [original meta "author"; str "RepairedByScript"]
  | "subject" => [original meta "subject"]
  | "keywords" => [original meta "keywords"]
  | "creator" => [original meta "creator"; original meta "producer"; str "pdf_repair.py"]
  | "producer" => [original meta "producer"; original meta "creator"]
  | _ => []
  end.

Definition viable (src : pystr) : Prop := src <> [].

Fixpoint first_viable (srcs : list pystr) : pystr :=
  match srcs with
  | [] => []
  | src :: rest => if truthy src then src else first_viable rest
  end.

(** The value the output document holds under a metadata key, if any. *)
Definition output_value (s : St) (k : string) : option pystr :=
  match out_meta s with Some m => m !! k | None => None end.

(** The calls of the backup of lines 98-99, in order. *)
Definition backup_attempt (w : World) (inp : Path) : result unit :=
  dst ← renamed w inp (BackupOf inp (utc_stamp w));
  copy2 w inp dst.

(** The calls of the resave of lines 116-123, in order. *)
Definition resave_attempt (w : World) (inp : Path) : result (option metadict) :=
  repaired ← renamed w inp (Resaved inp);
  doc ← fitz_open w inp;
  meta ← metadata doc;
  save_document (engine w) repaired;;
  mret meta.

(** Whether the resave goes through, and the input the rebuild then
    works on (lines 347-352). *)
Definition resave_succeeds (w : World) (inp : Path) : bool :=
  match resave_attempt w inp with
  | Ok _ => true
  | Raise _ => false
  end.

Definition working_input (w : World) (inp : Path) : Path :=
  if resave_succeeds w inp then Resaved inp else inp.

(** The final save of lines 303-305, as the answers of its two calls. *)
Definition final_save (w : World) (d : list OutPage) (output_pdf_path : Path) : result unit :=
  mkdir w (Parent output_pdf_path);;
  save_output (engine w) d output_pdf_path.

(** ** Concrete documents and collaborators, to run the script on *)

Definition a4_pixmap : Pixmap :=
  {| pix_width := 2480; pix_height := 3508; tobytes_png := Ok [] |}.

(** A healthy page whose text layer is [t]. *)
Definition text_page (t : pystr) : Page :=
  {| get_text := Ok t; get_pixmap := fun _ => Ok a4_pixmap;
     insert_copy := Ok tt; get_images := Ok [] |}.

(** A page with text that [insert_pdf] cannot copy. *)
Definition uncopyable_page (t : pystr) : Page :=
  {| get_text := Ok t; get_pixmap := fun _ => Ok a4_pixmap;
     insert_copy := Raise "cannot copy page"; get_images := Ok [] |}.

(** A scanned page: an image, no text layer. *)
Definition scanned_page : Page := text_page [].

(** A damaged page: no text, and it cannot be rendered either. *)
Definition unrenderable_page : Page :=
  {| get_text := Ok []; get_pixmap := fun _ => Raise "cannot render page";
     insert_copy := Ok tt; get_images := Ok [] |}.

(** PyMuPDF's [Document] has no method [insert_image] (a [Page] has):
    looking it up raises [AttributeError]. *)
Definition no_insert_image : exn := "'Document' object has no attribute 'insert_image'".

(** Collaborators on which every call the library offers goes through;
    Tesseract recognises [ocr_text] on every page it is given. *)
Definition working_engine (ocr_text : list (result pystr)) : Engine :=
  {| pytesseract := true;
     image_open := fun b => Ok b;
     image_to_pdf := fun img _ => Ok img;
     open_stream := fun _ => Ok {| temp_pages := ocr_text; temp_insert := Ok tt |};
     new_page := fun _ _ => Ok tt;
     document_insert_image := Raise no_insert_image;
     page_insert_image := fun _ => Ok tt;
     set_metadata := fun _ => Ok tt;
     save_document := fun _ => Ok tt;
     save_output := fun _ _ => Ok tt;
     no_last_page := "page not in document" |}.

(** The same without Tesseract: [pytesseract] is [None]. *)
Definition engine_without_ocr : Engine :=
  {| pytesseract := false;
     image_open := fun b => Ok b;
     image_to_pdf := fun img _ => Ok img;
     open_stream := fun _ => Ok {| temp_pages := []; temp_insert := Ok tt |};
     new_page := fun _ _ => Ok tt;
     document_insert_image := Raise no_insert_image;
     page_insert_image := fun _ => Ok tt;
     set_metadata := fun _ => Ok tt;
     save_document := fun _ => Ok tt;
     save_output := fun _ _ => Ok tt;
     no_last_page := "page not in document" |}.

(** No Tesseract, and a page refuses the image once it has been made for
    it. *)
Definition engine_rejecting_images : Engine :=
  {| pytesseract := false;
     image_open := fun b => Ok b;
     image_to_pdf := fun img _ => Ok img;
     open_stream := fun _ => Ok {| temp_pages := []; temp_insert := Ok tt |};
     new_page := fun _ _ => Ok tt;
     document_insert_image := Raise no_insert_image;
     page_insert_image := fun _ => Raise "cannot embed image";
     set_metadata := fun _ => Ok tt;
     save_document := fun _ => Ok tt;
     save_output := fun _ _ => Ok tt;
     no_last_page := "page not in document" |}.

(** Collaborators on which everything works, except that the output
    document refuses its metadata. *)
Definition engine_refusing_metadata : Engine :=
  {| pytesseract := true;
     image_open := fun b => Ok b;
     image_to_pdf := fun img _ => Ok img;
     open_stream := fun _ => Ok {| temp_pages := [Ok (str "scan")]; temp_insert := Ok tt |};
     new_page := fun _ _ => Ok tt;
     document_insert_image := Raise no_insert_image;
     page_insert_image := fun _ => Ok tt;
     set_metadata := fun _ => Raise "cannot set metadata";
     save_document := fun _ => Ok tt;
     save_output := fun _ _ => Ok tt;
     no_last_page := "page not in document" |}.

Definition document_of (slots : list (result Page)) : SrcDoc :=
  {| doc_pages := slots; metadata := Ok (Some ∅);
     extract_image := fun _ => Raise "no such image" |}.

(** A file system on which everything succeeds and every path opens as
    [doc]. *)
Definition world_of (e : Engine) (doc : SrcDoc) : World :=
  {| engine := e;
     path_exists := fun _ => true;
     empty_name := fun _ => None;
     utc_stamp := "20240101000000";
     copy2 := fun _ _ => Ok tt;
     fitz_open := fun _ => Ok doc;
     mkdir := fun _ => Ok tt;
     write_file := fun _ _ => Ok tt;
     write_json := fun _ => Ok tt;
     unlink := fun _ => Ok tt;
     stem := fun _ => str "input" |}.

Definition empty_state : St :=
  {| report := new_report (PathOf "input.pdf"); new_doc := []; out_meta := None; disk := [] |}.

(** "Hello" followed by the newline that ends an extracted line. *)
Definition hello_line : pystr := str "Hello" ++ [10%N].

(** Collaborators on which everything works, except that the output
    document cannot be written. *)
Definition engine_failing_save : Engine :=
  {| pytesseract := true;
     image_open := fun b => Ok b;
     image_to_pdf := fun img _ => Ok img;
     open_stream := fun _ => Ok {| temp_pages := [Ok (str "scan")]; temp_insert := Ok tt |};
     new_page := fun _ _ => Ok tt;
     document_insert_image := Raise no_insert_image;
     page_insert_image := fun _ => Ok tt;
     set_metadata := fun _ => Ok tt;
     save_document := fun _ => Ok tt;
     save_output := fun _ _ => Raise "disk full";
     no_last_page := "page not in document" |}.

(** The file system of [world_of], except that nothing can be copied. *)
Definition world_without_backup (e : Engine) (doc : SrcDoc) : World :=
  {| engine := e;
     path_exists := fun _ => true;
     empty_name := fun _ => None;
     utc_stamp := "20240101000000";
     copy2 := fun _ _ => Raise "permission denied";
     fitz_open := fun _ => Ok doc;
     mkdir := fun _ => Ok tt;
     write_file := fun _ _ => Ok tt;
     write_json := fun _ => Ok tt;
     unlink := fun _ => Ok tt;
     stem := fun _ => str "input" |}.

Definition sample_args : Args :=
  {| arg_input := "input.pdf"; arg_output := None; arg_ocr := true; arg_dpi := 300;
     arg_extract_images := None; arg_remove_blank := false; arg_ocr_lang := "eng";
     arg_report := None |}.

(** ** Further vocabulary *)

(** The keys of a recorded [page_info] agree with the branch that wrote
    them: a copied page has its character count and nothing else; a page
    without text has the keys of the mode it was processed in, with
    exactly one of the success key and the error key of the image
    insertion that was tried. *)
Definition entry_keys_ok (use_ocr : bool) (e : PageInfo) : bool :=
  match action e with
  | Some copied =>
      bool_decide (is_Some (text_chars e)) && bool_decide (ocr e = None)
      && negb (fallback_image_inserted e) && bool_decide (fallback_error e = None)
      && negb (image_inserted e) && bool_decide (image_error e = None)
  | Some no_text =>
      bool_decide (text_chars e = None)
      && (if use_ocr then
            negb (image_inserted e) && bool_decide (image_error e = None)
            && match ocr e with
               | Some applied =>
                   negb (fallback_image_inserted e) && bool_decide (fallback_error e = None)
               | Some (failed _) =>
                   xorb (fallback_image_inserted e) (bool_decide (is_Some (fallback_error e)))
               | None => false
               end
          else
            bool_decide (ocr e = None)
            && negb (fallback_image_inserted e) && bool_decide (fallback_error e = None)
            && xorb (image_inserted e) (bool_decide (is_Some (image_error e))))
  | None => false
  end.

Definition is_ocr_page (q : OutPage) : bool :=
  match q with OcrPage _ _ => true | _ => false end.

Definition is_new_page (q : OutPage) : bool :=
  match q with NewPage _ _ _ _ => true | _ => false end.

(** The image insertion of lines 253-256 (no OCR), as the answers of its
    calls in the order the script makes them. *)
Definition image_answers (w : World) (page : Page) (dpi : Z) : Fallback :=
  match get_pixmap page dpi with
  | Raise e => FailedBeforePage e
  | Ok pix =>
      match new_page (engine w) (pix_width pix) (pix_height pix) with
      | Raise e => FailedBeforePage e
      | Ok _ =>
          match tobytes_png pix with
          | Raise e => FailedAfterPage pix e
          | Ok png =>
              match page_insert_image (engine w) png with
              | Raise e => FailedAfterPage pix e
              | Ok _ => Inserted pix png
              end
          end
      end
  end.


(** The image lists of the pages of a document, when every page loads
    and lists its images. *)
Fixpoint image_lists (slots : list (result Page)) : result (list (list N)) :=
  match slots with
  | [] => Ok []
  | slot :: rest =>
      page ← slot;
      l ← get_images page;
      ls ← image_lists rest;
      mret (l :: ls)
  end.

(** The image index in the name of an extracted file. *)
Definition image_index (p : Path) : option nat :=
  match p with ImageFile _ _ k _ => Some k | _ => None end.

(** A document with a page that carries two embedded images, then a page
    with one. *)
Definition illustrated_document : SrcDoc :=
  {| doc_pages :=
       [Ok {| get_text := Ok (str "Figure 1"); get_pixmap := fun _ => Ok a4_pixmap;
              insert_copy := Ok tt; get_images := Ok [7%N; 9%N] |};
        Ok {| get_text := Ok []; get_pixmap := fun _ => Ok a4_pixmap;
              insert_copy := Ok tt; get_images := Ok [12%N] |}];
     metadata := Ok (Some ∅);
     extract_image := fun xref => Ok ([], if (xref =? 9)%N then None else Some "jpeg") |}.

(** A file system on which no document can be opened. *)
Definition world_without_documents (e : Engine) : World :=
  {| engine := e;
     path_exists := fun _ => true;
     empty_name := fun _ => None;
     utc_stamp := "20240101000000";
     copy2 := fun _ _ => Ok tt;
     fitz_open := fun _ => Raise "cannot open broken document";
     mkdir := fun _ => Ok tt;
     write_file := fun _ _ => Ok tt;
     write_json := fun _ => Ok tt;
     unlink := fun _ => Ok tt;
     stem := fun _ => str "input" |}.

(** The current directory given as the input: it exists, its name is
    empty, and it does not open as a document. *)
Definition world_of_unnamed_input (e : Engine) : World :=
  {| engine := e;
     path_exists := fun _ => true;
     empty_name := fun p =>
       match p with
       | PathOf "." => Some "PosixPath('.') has an empty name"
       | _ => None
       end;
     utc_stamp := "20240101000000";
     copy2 := fun _ _ => Raise "is a directory";
     fitz_open := fun _ => Raise "cannot open broken document";
     mkdir := fun _ => Ok tt;
     write_file := fun _ _ => Ok tt;
     write_json := fun _ => Ok tt;
     unlink := fun _ => Ok tt;
     stem := fun _ => [] |}.

(** [pdf_repair.py .] and [pdf_repair.py . -o out.pdf --report report.json] *)
Definition unnamed_args : Args :=
  {| arg_input := "."; arg_output := None; arg_ocr := false; arg_dpi := 300;
     arg_extract_images := None; arg_remove_blank := false; arg_ocr_lang := "eng";
     arg_report := None |}.

Definition unnamed_args_with_paths : Args :=
  {| arg_input := "."; arg_output := Some "out.pdf"; arg_ocr := false; arg_dpi := 300;
     arg_extract_images := None; arg_remove_blank := false; arg_ocr_lang := "eng";
     arg_report := Some "report.json" |}.
(** * Verification *)

(** ** Reasoning about statements *)

Lemma run_bind {A B} (m : M A) (f : A -> M B) (s : St) :
  (m ≫= f) s = match m s with
               | (Ok a, s') => f a s'
               | (Raise e, s') => (Raise e, s')
               end.
Proof. reflexivity. Qed.

Lemma run_try_catch {A} (body : M A) (handler : exn -> M A) (s : St) :
  try_catch body handler s = match body s with
                             | (Ok a, s') => (Ok a, s')
                             | (Raise e, s') => handler e s'
                             end.
Proof. reflexivity. Qed.

Lemma returns_ret {A} (a : A) : returns (mret a).
Proof. intros s. by exists a, s. Qed.

Lemma returns_modify (f : St -> St) : returns (modify f).
Proof. intros s. by exists tt, (f s). Qed.

Lemma returns_bind {A B} (m : M A) (f : A -> M B) :
  returns m -> (forall a, returns (f a)) -> returns (m ≫= f).
Proof.
  intros Hm Hf s. rewrite run_bind. destruct (Hm s) as (a & s' & ->). apply Hf.
Qed.

Lemma returns_try_catch {A} (body : M A) (handler : exn -> M A) :
  (forall e, returns (handler e)) -> returns (try_catch body handler).
Proof.
  intros Hh s. rewrite run_try_catch. destruct (body s) as [[a|e] s'].
  - by exists a, s'.
  - apply Hh.
Qed.

Section Keeps.

Context (R : relation St) `{!PreOrder R}.

Lemma keeps_ret {A} (a : A) : keeps R (mret a).
Proof. intros s. simpl. reflexivity. Qed.

Lemma keeps_call {A} (r : result A) : keeps R (call r).
Proof. intros s. simpl. reflexivity. Qed.

Lemma keeps_throw {A} (e : exn) : keeps R (@throw A e).
Proof. intros s. simpl. reflexivity. Qed.

Lemma keeps_bind {A B} (m : M A) (f : A -> M B) :
  keeps R m -> (forall a, keeps R (f a)) -> keeps R (m ≫= f).
Proof.
  intros Hm Hf s. rewrite run_bind. specialize (Hm s).
  destruct (m s) as [[a|e] s']; simpl in *; [|done].
  etrans; [exact Hm|apply Hf].
Qed.

Lemma keeps_try_catch {A} (body : M A) (handler : exn -> M A) :
  keeps R body -> (forall e, keeps R (handler e)) -> keeps R (try_catch body handler).
Proof.
  intros Hb Hh s. rewrite run_try_catch. specialize (Hb s).
  destruct (body s) as [[a|e] s']; simpl in *; [done|].
  etrans; [exact Hb|apply Hh].
Qed.

Lemma keeps_modify (f : St -> St) : (forall s, R s (f s)) -> keeps R (modify f).
Proof. intros Hf s. apply Hf. Qed.

End Keeps.

(** Walks through a statement, leaving the primitive mutations. *)
Ltac keeps_walk :=
  repeat first
    [ apply keeps_ret; apply _ | apply keeps_call; apply _ | apply keeps_throw; apply _
    | apply keeps_bind; [apply _| |intros ?]
    | apply keeps_try_catch; [apply _| |intros ?]
    | match goal with
      | |- keeps _ (if ?b then _ else _) => destruct b
      | |- keeps _ (match ?p with (_, _) => _ end) => destruct p
      | |- keeps _ (let _ := _ in _) => cbv zeta
      end ].

(** ** Trimming *)

Lemma lstrip_nil_iff (s : pystr) : lstrip s = [] <-> forallb isspace s = true.
Proof.
  induction s as [|c s IH]; simpl; [done|].
  destruct (isspace c); simpl; [exact IH|]. split; discriminate.
Qed.

Lemma lstrip_suffix (s : pystr) : exists pre, s = pre ++ lstrip s /\ forallb isspace pre = true.
Proof.
  induction s as [|c s [pre [E H]]]; simpl.
  - by exists [].
  - destruct (isspace c) eqn:Hc.
    + exists (c :: pre). simpl. rewrite Hc, H. split; [congruence|done].
    + by exists [].
Qed.

Lemma strip_nil_iff (s : pystr) : strip s = [] <-> forallb isspace s = true.
Proof.
  unfold strip, rstrip. destruct (lstrip_suffix s) as [pre [E Hpre]].
  split.
  - intros H. apply (f_equal (@rev N)) in H. rewrite rev_involutive in H. simpl in H.
    apply lstrip_nil_iff in H. rewrite forallb_forall in H.
    rewrite E, forallb_app, Hpre. simpl. apply forallb_forall.
    intros c Hc. apply H, in_rev. by rewrite rev_involutive.
  - intros H. rewrite E, forallb_app in H. apply andb_prop in H as [_ H].
    assert (lstrip (rev (lstrip s)) = []) as ->; [|done].
    apply lstrip_nil_iff, forallb_forall. intros c Hc.
    rewrite forallb_forall in H. apply H. by apply in_rev.
Qed.

Lemma strip_nonempty (s : pystr) : strip s <> [] -> truthy s = true.
Proof. destruct s; [intros H; by destruct H|done]. Qed.

Lemma truthy_true (s : pystr) : truthy s = true <-> s <> [].
Proof. destruct s; simpl; split; (done || congruence). Qed.

Example strip_hello_line : strip hello_line = str "Hello".
Proof. reflexivity. Qed.

Example strip_blanks : strip (str "  " ++ [9; 10; 160; 8195]%N) = [].
Proof. reflexivity. Qed.

(** ** The page classifier *)

(** C6. [page_has_text] always returns a boolean, the exception of a failed
    extraction never escapes it; the boolean is [true] exactly when the
    extraction yields a string that is not empty once trimmed, and [false]
    in particular when the extraction raises. *)
Theorem page_has_text_iff_trimmed_text (page : Page) :
  exists b : bool,
    page_has_text page = Ok b /\
    (b = true <-> exists txt, get_text page = Ok txt /\ strip txt <> []) /\
    ((exists e, get_text page = Raise e) -> b = false).
Proof.
  unfold page_has_text, try_except. destruct (get_text page) as [txt|e] eqn:E; simpl.
  - destruct (truthy txt && truthy (strip txt)) eqn:Hb; simpl.
    + exists true. split; [reflexivity|]. split; [|by intros [e ?]].
      split; [|reflexivity]. intros _. exists txt. split; [reflexivity|].
      apply andb_prop in Hb as [_ Hb]. by apply truthy_true in Hb.
    + exists false. split; [reflexivity|]. split; [|by intros [e ?]].
      split; [discriminate|]. intros (t & Et & Ht). injection Et as <-.
      apply andb_false_iff in Hb as [Hb|Hb].
      * apply strip_nonempty in Ht. congruence.
      * apply truthy_true in Ht. congruence.
  - exists false. split; [reflexivity|]. split; [|reflexivity].
    split; [discriminate|]. by intros (t & ? & _).
Qed.

(** ** The page loop records an entry or a failure for every page *)

#[local] Instance quiet_preorder : PreOrder quiet.
Proof.
  split.
  - intros s. by split.
  - intros s1 s2 s3 [H1 H2] [H3 H4]. split; congruence.
Qed.

Lemma processing_failures_app (l1 l2 : list Msg) :
  processing_failures (l1 ++ l2) = processing_failures l1 + processing_failures l2.
Proof. induction l1 as [|m l1 IH]; simpl; [done|]. rewrite IH. lia. Qed.

Lemma quiet_add_action (msg : Msg) : keeps quiet (add_action msg).
Proof. intros s. by split. Qed.

Lemma quiet_add_error (msg : Msg) :
  is_processing_failure msg = false -> keeps quiet (add_error msg).
Proof.
  intros H s. split; [done|]. simpl. rewrite processing_failures_app. simpl.
  rewrite H. lia.
Qed.

Lemma quiet_with_new_doc (f : list OutPage -> list OutPage) :
  keeps quiet (modify (with_new_doc f)).
Proof. intros s. by split. Qed.

Lemma quiet_doc_last (w : World) : keeps quiet (doc_last w).
Proof. intros s. unfold doc_last. by destruct (last (new_doc s)). Qed.

Lemma quiet_doc_delete_last (w : World) : keeps quiet (doc_delete_last w).
Proof. intros s. unfold doc_delete_last. by destruct (new_doc s). Qed.

Ltac quiet_prim :=
  first [ apply quiet_add_action | by apply quiet_add_error
        | apply quiet_with_new_doc | apply quiet_doc_last | apply quiet_doc_delete_last ].

Lemma page_outcome_quiet w use_ocr dpi remove_blank lang i slot :
  keeps quiet (page_outcome w use_ocr dpi remove_blank lang i slot).
Proof.
  unfold page_outcome. keeps_walk; quiet_prim.
Qed.

(** One iteration never raises, and records either the page's entry or a
    processing failure, never both. *)
Lemma process_page_records w use_ocr dpi remove_blank lang i slot s :
  exists s', process_page w use_ocr dpi remove_blank lang i slot s = (Ok tt, s') /\
    ((exists info, pages (report s') = pages (report s) ++ [(i + 1, info)] /\
        processing_failures (errors (report s')) = processing_failures (errors (report s)))
     \/ (pages (report s') = pages (report s) /\
         processing_failures (errors (report s'))
         = S (processing_failures (errors (report s))))).
Proof.
  unfold process_page, page_body. rewrite run_try_catch, run_bind.
  destruct (page_outcome_quiet w use_ocr dpi remove_blank lang i slot s) as [Hp Hf].
  destruct (page_outcome _ _ _ _ _ _ _ s) as [[info|e] s1]; simpl in *.
  - eexists. split; [reflexivity|]. left. exists info. simpl. by rewrite Hp, Hf.
  - eexists. split; [reflexivity|]. right. simpl.
    rewrite processing_failures_app, Hp, Hf. simpl. split; [done|lia].
Qed.



(** ** A page with text is copied *)

Lemma page_has_text_true (page : Page) :
  page_has_text page = Ok true ->
  exists txt, get_text page = Ok txt /\ truthy txt = true /\ truthy (strip txt) = true.
Proof.
  unfold page_has_text, try_except. destruct (get_text page) as [txt|e]; simpl.
  - destruct (truthy txt && truthy (strip txt)) eqn:Hb; simpl; [|discriminate].
    intros _. exists txt. apply andb_prop in Hb as [? ?]. by repeat split.
  - discriminate.
Qed.

(** Unfolds a run of the page loop's body down to the oracles. *)
Ltac run_page :=
  unfold process_page, page_body, page_outcome, insert_page, copy_page, ocr_page,
    fallback_image, image_page, prune_last, doc_last, doc_delete_last, doc_append,
    add_page_entry, add_action, add_error, try_catch, modify, call, throw,
    mbind, M_bind, mret, M_ret; simpl.

(** C3, as the script has it.  A page classified as having text, when
    [insert_pdf] takes it, is copied into the output document, its entry
    says [copied], and the recorded character count is the length of the
    extracted text as it is, leading and trailing whitespace included.
    Pruning leaves the copy in place. *)
Theorem text_page_is_copied w use_ocr dpi remove_blank lang i page s :
  page_has_text page = Ok true ->
  insert_copy page = Ok tt ->
  exists txt s',
    get_text page = Ok txt /\
    process_page w use_ocr dpi remove_blank lang i (Ok page) s = (Ok tt, s') /\
    new_doc s' = new_doc s ++ [Copied i page] /\
    pages (report s') = pages (report s) ++
      [(i + 1, set_text_chars (length txt) (set_action copied (new_page_info (i + 1))))] /\
    errors (report s') = errors (report s).
Proof.
  intros Htext Hcopy. destruct (page_has_text_true page Htext) as (txt & Etxt & Ht & Hs).
  exists txt. run_page. rewrite Htext, Hcopy, Etxt. simpl.
  assert (str_or txt [] = txt) as Hor by (unfold str_or; by rewrite Ht).
  destruct remove_blank; simpl.
  - rewrite last_snoc. simpl. rewrite Etxt, Hor, Hs. simpl.
    eexists. split; [done|]. by split.
  - eexists. split; [done|]. split; [done|]. by rewrite Hor.
Qed.

Lemma text_page_is_copied_witness :
  page_has_text (text_page hello_line) = Ok true /\
  insert_copy (text_page hello_line) = Ok tt /\
  exists txt s',
    get_text (text_page hello_line) = Ok txt /\
    process_page (world_of engine_without_ocr (document_of [])) false 300 true "eng" 0
      (Ok (text_page hello_line)) empty_state = (Ok tt, s') /\
    new_doc s' = new_doc empty_state ++ [Copied 0 (text_page hello_line)] /\
    pages (report s') = pages (report empty_state) ++
      [(0 + 1, set_text_chars (length txt) (set_action copied (new_page_info (0 + 1))))] /\
    errors (report s') = errors (report empty_state).
Proof.
  split; [reflexivity|]. split; [reflexivity|].
  apply (text_page_is_copied (world_of engine_without_ocr (document_of [])) false 300 true "eng"
           0 (text_page hello_line) empty_state); reflexivity.
Defined.

(** C3 as stated fails: for a page whose text is "Hello" and a newline
    the entry records 6 characters, the trimmed text has 5.  And a page
    with text whose copy raises is not copied: it gets an error, no entry. *)
Lemma copied_count_is_not_trimmed :
  (let page := text_page hello_line in
   let w := world_of engine_without_ocr (document_of [Ok page]) in
   let s' := (process_page w false 300 false "eng" 0 (Ok page) empty_state).2 in
   page_has_text page = Ok true /\
   (text_chars <$> (snd <$> pages (report s'))) = [Some 6] /\
   length (strip hello_line) = 5 /\
   (text_chars <$> (snd <$> pages (report s'))) <> [Some (length (strip hello_line))]) /\
  (let page := uncopyable_page hello_line in
   let w := world_of engine_without_ocr (document_of [Ok page]) in
   let s' := (process_page w false 300 false "eng" 0 (Ok page) empty_state).2 in
   page_has_text page = Ok true /\
   new_doc s' = [] /\ pages (report s') = [] /\
   errors (report s') = [PageProcessingFailed 1 "cannot copy page"]).
Proof. repeat split; discriminate. Qed.

(** The three-page scenario: text, scan, text, with OCR and no pruning.
    Three output pages in source order, three entries; each text page is
    recorded with the 6 characters of "Hello" and its newline. *)
Example three_pages_with_ocr :
  let slots := [Ok (text_page hello_line); Ok scanned_page; Ok (text_page hello_line)] in
  let w := world_of (working_engine [Ok (str "scan")]) (document_of slots) in
  let s' := (page_loop w true 300 false "eng" 0 slots empty_state).2 in
  origin <$> new_doc s' = [0; 1; 2] /\
  (fun e => (e.1, action e.2, text_chars e.2, ocr e.2)) <$> pages (report s')
  = [(1, Some copied, Some 6, None);
     (2, Some no_text, None, Some applied);
     (3, Some copied, Some 6, None)] /\
  errors (report s') = [].
Proof. by repeat split. Qed.

(** The same with pruning, when the page Tesseract returns is blank: two
    output pages, and the entry of page 2 says both [applied] and
    [removed_blank]. *)
Example blank_ocr_page_is_pruned :
  let slots := [Ok (text_page hello_line); Ok scanned_page; Ok (text_page hello_line)] in
  let w := world_of (working_engine [Ok []]) (document_of slots) in
  let s' := (page_loop w true 300 true "eng" 0 slots empty_state).2 in
  origin <$> new_doc s' = [0; 2] /\
  (fun e => (e.1, ocr e.2, removed_blank e.2)) <$> pages (report s')
  = [(1, None, false); (2, Some applied, true); (3, None, false)].
Proof. by repeat split. Qed.

(** ** What one iteration does to the output document *)

Lemma place_image_snoc (png : bytes) (d : list OutPage) i w h o :
  place_image png (d ++ [NewPage i w h o]) = d ++ [NewPage i w h (Some png)].
Proof. unfold place_image. by rewrite last_snoc, removelast_last. Qed.

(** The insertion phase only appends, and what it appends is tagged with
    the index of the page being processed. *)
Lemma insert_page_appends w use_ocr dpi lang i page info s :
  exists qs, new_doc (insert_page w use_ocr dpi lang i page info s).2 = new_doc s ++ qs /\
             Forall (fun q => origin q = i) qs.
Proof.
  run_page. unfold with_new_doc, with_report.
  repeat case_match; simplify_eq/=; rewrite ?place_image_snoc;
    first [ exists []; split; [by rewrite app_nil_r|constructor]
          | eexists [_]; split; [reflexivity|by repeat constructor]
          | eexists; split; [reflexivity|]; apply Forall_forall; intros q Hq;
            apply list_elem_of_fmap in Hq as (t & -> & _); reflexivity ].
Qed.

(** The pruning step leaves the document alone or drops its last page. *)
Lemma prune_last_drops_at_most_last w i info s :
  new_doc (prune_last w i info s).2 = new_doc s \/
  new_doc (prune_last w i info s).2 = removelast (new_doc s).
Proof.
  run_page. unfold with_new_doc, with_report.
  repeat case_match; simplify_eq/=; auto.
  right. by match goal with H : new_doc _ = _ |- _ => rewrite H end.
Qed.

Lemma page_outcome_document w use_ocr dpi remove_blank lang i slot s :
  exists qs, Forall (fun q => origin q = i) qs /\
    (new_doc (page_outcome w use_ocr dpi remove_blank lang i slot s).2 = new_doc s ++ qs \/
     new_doc (page_outcome w use_ocr dpi remove_blank lang i slot s).2
     = removelast (new_doc s ++ qs)).
Proof.
  unfold page_outcome. rewrite run_bind. unfold call at 1.
  destruct slot as [page|e]; simpl.
  - rewrite run_bind.
    destruct (insert_page_appends w use_ocr dpi lang i page (new_page_info (i + 1)) s)
      as (qs & Hqs & Hi).
    exists qs. split; [done|].
    destruct (insert_page _ _ _ _ _ _ _ s) as [[info|e] s1]; simpl in *; [|by left].
    destruct remove_blank; [|by left].
    rewrite <- Hqs. apply prune_last_drops_at_most_last.
  - exists []. split; [constructor|]. left. by rewrite app_nil_r.
Qed.

Lemma process_page_document w use_ocr dpi remove_blank lang i slot s :
  new_doc (process_page w use_ocr dpi remove_blank lang i slot s).2
  = new_doc (page_outcome w use_ocr dpi remove_blank lang i slot s).2.
Proof.
  unfold process_page, page_body. rewrite run_try_catch, run_bind.
  by destruct (page_outcome _ _ _ _ _ _ _ s) as [[info|e] s1].
Qed.

(** *** Source order *)

Lemma ordered_below_app n d qs :
  ordered_below n d -> Forall (fun q => origin q = n) qs -> ordered_below (S n) (d ++ qs).
Proof.
  intros [Hord Hlt] Hqs. split.
  - intros a b qa qb Hab Ha Hb.
    apply lookup_app_Some in Ha as [Ha|[Hla Ha]];
      apply lookup_app_Some in Hb as [Hb|[Hlb Hb]].
    + by apply (Hord a b).
    + rewrite Forall_forall in Hlt, Hqs.
      apply list_elem_of_lookup_2 in Ha, Hb.
      specialize (Hlt _ Ha). specialize (Hqs _ Hb). lia.
    + apply lookup_lt_Some in Hb. lia.
    + rewrite Forall_forall in Hqs. apply list_elem_of_lookup_2 in Ha, Hb.
      rewrite (Hqs _ Ha), (Hqs _ Hb). lia.
  - apply Forall_app. split.
    + eapply Forall_impl; [exact Hlt|]. simpl. lia.
    + eapply Forall_impl; [exact Hqs|]. simpl. lia.
Qed.

Lemma ordered_below_removelast n d :
  ordered_below n d -> ordered_below n (removelast d).
Proof.
  intros [Hord Hlt]. rewrite removelast_firstn_len. split.
  - intros a b qa qb Hab Ha Hb.
    apply lookup_take_Some in Ha as [Ha _]. apply lookup_take_Some in Hb as [Hb _].
    by apply (Hord a b).
  - by apply Forall_take.
Qed.

Lemma process_page_ordered w use_ocr dpi remove_blank lang i slot s :
  ordered_below i (new_doc s) ->
  ordered_below (S i) (new_doc (process_page w use_ocr dpi remove_blank lang i slot s).2).
Proof.
  intros H. rewrite process_page_document.
  destruct (page_outcome_document w use_ocr dpi remove_blank lang i slot s)
    as (qs & Hqs & [-> | ->]).
  - by apply ordered_below_app.
  - by apply ordered_below_removelast, ordered_below_app.
Qed.

Lemma page_loop_ordered w use_ocr dpi remove_blank lang slots i s :
  ordered_below i (new_doc s) ->
  ordered_below (i + length slots)
    (new_doc (page_loop w use_ocr dpi remove_blank lang i slots s).2).
Proof.
  revert i s. induction slots as [|slot rest IH]; intros i s H; simpl.
  - by rewrite Nat.add_0_r.
  - rewrite run_bind.
    pose proof (process_page_ordered w use_ocr dpi remove_blank lang i slot s H) as H1.
    destruct (process_page_records w use_ocr dpi remove_blank lang i slot s) as (s1 & E & _).
    rewrite E in *. simpl in H1. replace (i + S (length rest)) with (S i + length rest) by lia.
    by apply IH.
Qed.

(** The true half of C1: whatever the pruning step removes, the pages that
    stay in the output document are in the order of the source pages they
    were derived from. *)
Lemma page_loop_keeps_source_order w use_ocr dpi remove_blank lang slots s :
  new_doc s = [] ->
  in_source_order (new_doc (page_loop w use_ocr dpi remove_blank lang 0 slots s).2).
Proof.
  intros E. apply (page_loop_ordered w use_ocr dpi remove_blank lang slots 0 s).
  rewrite E. split; [|constructor]. intros a b qa qb _ Ha. by rewrite lookup_nil in Ha.
Qed.

(** When the insertion phase has appended something, the page the pruning
    step loads belongs to the page being processed. *)
Lemma pruned_page_is_own_when_appended w use_ocr dpi lang i page info s :
  new_doc (insert_page w use_ocr dpi lang i page info s).2 <> new_doc s ->
  exists q, doc_last w (insert_page w use_ocr dpi lang i page info s).2
            = (Ok q, (insert_page w use_ocr dpi lang i page info s).2) /\
            origin q = i.
Proof.
  unfold doc_last.
  destruct (insert_page_appends w use_ocr dpi lang i page info s) as (qs & -> & Hqs).
  intros Hne. destruct qs as [|q0 qs0 _] using rev_ind; [by rewrite app_nil_r in Hne|].
  exists q0. rewrite app_assoc, last_snoc. split; [done|].
  apply Forall_app in Hqs as [_ Hq]. by inversion Hq.
Qed.

(** C1 fails on the script.  With pruning on, take a page with text
    followed by a page without text that cannot be rendered.  The second
    iteration appends nothing, and the page its pruning step loads with
    [new_doc[-1]] and extracts text from is the copy of the first page.
    When an earlier page left in the document is blank (here: Tesseract
    returned two blank pages for the first source page) the later
    iteration deletes it and flags its own entry as [removed_blank]. *)
Theorem prune_inspects_page_of_earlier_iteration :
  (let first := text_page hello_line in
   let w := world_of engine_without_ocr (document_of [Ok first; Ok unrenderable_page]) in
   let s1 := (process_page w false 300 true "eng" 0 (Ok first) empty_state).2 in
   let s2 := (insert_page w false 300 "eng" 1 unrenderable_page (new_page_info 2) s1).2 in
   new_doc s1 = [Copied 0 first] /\
   new_doc s2 = new_doc s1 /\
   doc_last w s2 = (Ok (Copied 0 first), s2)) /\
  (let w := world_of (working_engine [Ok []; Ok []])
              (document_of [Ok scanned_page; Ok unrenderable_page]) in
   let t1 := (process_page w true 300 true "eng" 0 (Ok scanned_page) empty_state).2 in
   let t2 := (process_page w true 300 true "eng" 1 (Ok unrenderable_page) t1).2 in
   new_doc t1 = [OcrPage 0 (Ok [])] /\
   new_doc t2 = [] /\
   (fun e => (e.1, removed_blank e.2)) <$> pages (report t2) = [(1, true); (2, true)]).
Proof. by repeat split. Qed.

(** ** Pruning is conservative *)

Lemma insert_page_leaves_removed_blank w use_ocr dpi lang i page info s info' s' :
  insert_page w use_ocr dpi lang i page info s = (Ok info', s') ->
  removed_blank info' = removed_blank info.
Proof.
  run_page. repeat case_match; intros; simplify_eq/=; done.
Qed.

(** C8.  When extracting the text of the page loaded by the pruning step
    raises, the step changes nothing: no page is deleted, nothing is
    logged, and the page's entry is recorded without [removed_blank]. *)
Theorem prune_keeps_page_when_extraction_fails w use_ocr dpi lang i page s info s1 q e :
  insert_page w use_ocr dpi lang i page (new_page_info (i + 1)) s = (Ok info, s1) ->
  last (new_doc s1) = Some q ->
  out_get_text q = Raise e ->
  prune_last w i info s1 = (Ok info, s1) /\
  removed_blank info = false /\
  exists s', process_page w use_ocr dpi true lang i (Ok page) s = (Ok tt, s') /\
             new_doc s' = new_doc s1 /\
             pages (report s') = pages (report s1) ++ [(i + 1, info)] /\
             actions (report s') = actions (report s1).
Proof.
  intros Hins Hlast Htext.
  assert (prune_last w i info s1 = (Ok info, s1)) as Hprune.
  { run_page. by rewrite Hlast, Htext. }
  split; [done|]. split.
  { by rewrite (insert_page_leaves_removed_blank _ _ _ _ _ _ _ _ _ _ Hins). }
  unfold process_page, page_body, page_outcome.
  rewrite run_try_catch, !run_bind. unfold call at 1. rewrite run_bind, Hins, Hprune.
  eexists. split; [reflexivity|]. by repeat split.
Qed.

Lemma prune_keeps_page_when_extraction_fails_witness :
  let w := world_of (working_engine [Raise "text extraction failed"]) (document_of []) in
  let r := insert_page w true 300 "eng" 0 scanned_page (new_page_info (0 + 1)) empty_state in
  exists info s1,
    r = (Ok info, s1) /\
    last (new_doc s1) = Some (OcrPage 0 (Raise "text extraction failed")) /\
    prune_last w 0 info s1 = (Ok info, s1) /\
    removed_blank info = false /\
    exists s', process_page w true 300 true "eng" 0 (Ok scanned_page) empty_state = (Ok tt, s') /\
               new_doc s' = new_doc s1 /\
               pages (report s') = pages (report s1) ++ [(0 + 1, info)] /\
               actions (report s') = actions (report s1).
Proof.
  eexists _, _. split; [lazy; reflexivity|]. split; [reflexivity|].
  eapply (prune_keeps_page_when_extraction_fails
            (world_of (working_engine [Raise "text extraction failed"]) (document_of []))
            true 300 "eng" 0 scanned_page empty_state);
    reflexivity.
Defined.

(** ** The fallback after a failed OCR *)

(** Splits on the answers of the calls of the fallback and reads off the
    final state. *)
Ltac fallback_cases :=
  repeat case_match; simplify_eq/=;
  eexists _, _; (split; [reflexivity|]); simpl; rewrite ?place_image_snoc, <- ?app_assoc;
  by repeat split.

(** For a page without text processed with OCR on, a failed OCR attempt
    is recorded and followed by the image fallback, whose outcome follows
    the answers of its calls: a page carrying the image when all of them
    go through; nothing when one fails before [new_page] returns; the
    page just made, empty, when one fails after it. *)
Lemma failed_ocr_runs_the_fallback w dpi lang i page s e :
  page_has_text page = Ok false ->
  ocr_attempt w page dpi lang = Raise e ->
  exists info s',
    insert_page w true dpi lang i page (new_page_info (i + 1)) s = (Ok info, s') /\
    ocr info = Some (failed e) /\
    match fallback_answers w page dpi with
    | Inserted pix png =>
        new_doc s' = new_doc s ++ [NewPage i (pix_width pix) (pix_height pix) (Some png)] /\
        fallback_image_inserted info = true /\ fallback_error info = None
    | FailedBeforePage e2 =>
        new_doc s' = new_doc s /\
        fallback_image_inserted info = false /\ fallback_error info = Some e2 /\
        errors (report s') = errors (report s) ++
          [PageOcrFailed (i + 1) e; PageFallbackFailed (i + 1) e2]
    | FailedAfterPage pix e2 =>
        new_doc s' = new_doc s ++ [NewPage i (pix_width pix) (pix_height pix) None] /\
        fallback_image_inserted info = false /\ fallback_error info = Some e2
    end.
Proof.
  intros Htext Hocr. unfold ocr_attempt in Hocr. unfold fallback_answers.
  run_page. rewrite Htext. simpl.
  destruct (ocr_page_to_pdf_bytes w page dpi lang) as [b|e1]; simpl in Hocr.
  - destruct (open_stream (engine w) b) as [t|e2]; simpl in Hocr.
    + destruct (temp_insert t); simpl in Hocr; [discriminate|]. simplify_eq.
      fallback_cases.
    + simplify_eq.
      fallback_cases.
  - simplify_eq.
    fallback_cases.
Qed.

(** C4.  The fallback of line 243 cannot insert anything where the
    output document has no method [insert_image], as in PyMuPDF, in which
    only a page has one: the method is looked up before the page for the
    image is made, and that raises.  So for a page without text whose OCR
    fails, the entry carries the failed OCR and [fallback_error], both
    errors are logged and the page contributes nothing to the output
    document, even when the page renders and goes in as an image when OCR
    is off (line 256, which calls the method on the page). *)
Theorem failed_ocr_fallback_cannot_insert w dpi lang i page s e ea pix png :
  page_has_text page = Ok false ->
  ocr_attempt w page dpi lang = Raise e ->
  document_insert_image (engine w) = Raise ea ->
  image_answers w page dpi = Inserted pix png ->
  (exists info s',
     insert_page w true dpi lang i page (new_page_info (i + 1)) s = (Ok info, s') /\
     ocr info = Some (failed e) /\
     fallback_image_inserted info = false /\
     fallback_error info = Some ea /\
     new_doc s' = new_doc s /\
     errors (report s') = errors (report s) ++
       [PageOcrFailed (i + 1) e; PageFallbackFailed (i + 1) ea]) /\
  (exists info s',
     insert_page w false dpi lang i page (new_page_info (i + 1)) s = (Ok info, s') /\
     image_inserted info = true /\
     image_error info = None /\
     new_doc s' = new_doc s ++ [NewPage i (pix_width pix) (pix_height pix) (Some png)]).
Proof.
  intros Htext Hocr Hattr Himg. split.
  - destruct (failed_ocr_runs_the_fallback w dpi lang i page s e Htext Hocr)
      as (info & s' & E & Hinfo & H).
    assert (fallback_answers w page dpi = FailedBeforePage ea) as Hfb.
    { unfold fallback_answers. unfold image_answers in Himg.
      destruct (get_pixmap page dpi); [|discriminate]. by rewrite Hattr. }
    rewrite Hfb in H. destruct H as (? & ? & ? & ?). by exists info, s'.
  - revert Himg. unfold image_answers. run_page. rewrite Htext. simpl.
    repeat case_match; intros; simplify_eq/=.
    eexists _, _. split; [reflexivity|]. simpl. rewrite ?place_image_snoc. by repeat split.
Qed.

Lemma failed_ocr_fallback_cannot_insert_witness :
  let w := world_of engine_without_ocr (document_of [Ok scanned_page]) in
  let e := "pytesseract not available for OCR fallback" in
  page_has_text scanned_page = Ok false /\
  ocr_attempt w scanned_page 300 "eng" = Raise e /\
  image_answers w scanned_page 300 = Inserted a4_pixmap [] /\
  (exists info s',
     insert_page w true 300 "eng" 0 scanned_page (new_page_info (0 + 1)) empty_state
     = (Ok info, s') /\
     ocr info = Some (failed e) /\
     fallback_image_inserted info = false /\
     fallback_error info = Some "'Document' object has no attribute 'insert_image'" /\
     new_doc s' = new_doc empty_state /\
     errors (report s') = errors (report empty_state) ++
       [PageOcrFailed (0 + 1) e;
        PageFallbackFailed (0 + 1) "'Document' object has no attribute 'insert_image'"]) /\
  (exists info s',
     insert_page w false 300 "eng" 0 scanned_page (new_page_info (0 + 1)) empty_state
     = (Ok info, s') /\
     image_inserted info = true /\
     image_error info = None /\
     new_doc s' = new_doc empty_state ++ [NewPage 0 2480 3508 (Some [])]).
Proof.
  intros w e. split; [reflexivity|]. split; [reflexivity|]. split; [reflexivity|].
  apply (failed_ocr_fallback_cannot_insert w 300 "eng" 0 scanned_page empty_state e
           "'Document' object has no attribute 'insert_image'" a4_pixmap []); reflexivity.
Defined.

(** ** Metadata *)

Lemma first_viable_spec (srcs : list pystr) :
  (exists src, src ∈ srcs /\ viable src) <-> first_viable srcs <> [].
Proof.
  unfold viable. induction srcs as [|x rest IH]; simpl.
  - split; [intros (src & H & _); by apply elem_of_nil in H|done].
  - destruct x as [|c x]; simpl.
    + rewrite <- IH. split.
      * intros (src & H & Hv). apply elem_of_cons in H as [->|H]; [done|]. by exists src.
      * intros (src & H & Hv). exists src. split; [by right|done].
    + split; [done|]. intros _. exists (c :: x). split; [by left|done].
Qed.

Lemma opt_or_first_viable (meta : metadict) (k : string) (d : pystr) :
  opt_or (dict_get meta k) d = first_viable [original meta k; d].
Proof.
  unfold original, opt_or, str_or. simpl.
  destruct (dict_get meta k) as [[|c v]|]; simpl; by destruct d.
Qed.

Lemma opt_or_opt_first_viable (meta : metadict) (k k' : string) (d : pystr) :
  opt_or (opt_or_opt (dict_get meta k) (dict_get meta k')) d
  = first_viable [original meta k; original meta k'; d].
Proof.
  unfold original, opt_or, opt_or_opt, str_or. simpl.
  destruct (dict_get meta k) as [[|c v]|]; simpl;
    destruct (dict_get meta k') as [[|c' v']|]; simpl; by destruct d.
Qed.

(** [meta_fixed] has the six keys and no other, and gives each the first
    viable of its sources. *)
Lemma meta_fixed_lookup w meta input k :
  meta_fixed w meta input !! k
  = if bool_decide (k ∈ metadata_keys) then Some (first_viable (sources w meta input k))
    else None.
Proof.
  unfold meta_fixed. rewrite !lookup_insert, lookup_empty.
  case_bool_decide as Hk.
  - unfold metadata_keys in Hk. rewrite !elem_of_cons, elem_of_nil in Hk.
    destruct Hk as [->|[->|[->|[->|[->|[->|[]]]]]]]; repeat case_decide; try done; simpl;
      rewrite ?opt_or_first_viable, ?opt_or_opt_first_viable; try done.
  - repeat case_decide; subst; try done; exfalso; apply Hk; by repeat constructor.
Qed.

(** C5, as the script has it.  When reading the source's metadata and
    applying the merged metadata both go through, the output document
    holds exactly the six keys; each is resolved to the first viable among
    its original value, the original value of its alternate key and its
    generated default, so it is non-empty whenever one of these is viable.
    Nothing is said here of a merge that fails. *)
Theorem merged_metadata_is_resolved w src_doc input s m :
  metadata src_doc = Ok m ->
  set_metadata (engine w) (meta_fixed w (default ∅ m) input) = Ok tt ->
  exists s',
    merge_metadata w src_doc input s = (Ok tt, s') /\
    forall k,
      match output_value s' k with
      | Some v =>
          k ∈ metadata_keys /\
          v = first_viable (sources w (default ∅ m) input k) /\
          ((exists src, src ∈ sources w (default ∅ m) input k /\ viable src) -> v <> [])
      | None => k ∉ metadata_keys
      end.
Proof.
  intros Hm Hset. unfold merge_metadata.
  unfold try_catch, modify, call, add_action, mbind, M_bind, mret, M_ret.
  rewrite Hm. simpl. rewrite Hset. eexists. split; [reflexivity|].
  intros k. unfold output_value. simpl. rewrite meta_fixed_lookup.
  case_bool_decide; [|done]. split; [done|]. split; [done|].
  by intros ?%first_viable_spec.
Qed.

Lemma merged_metadata_is_resolved_witness :
  let doc := document_of [] in
  let w := world_of engine_without_ocr doc in
  metadata doc = Ok (Some ∅) /\
  set_metadata (engine w) (meta_fixed w (default ∅ (Some ∅)) (PathOf "input.pdf")) = Ok tt /\
  exists s',
    merge_metadata w doc (PathOf "input.pdf") empty_state = (Ok tt, s') /\
    forall k,
      match output_value s' k with
      | Some v =>
          k ∈ metadata_keys /\
          v = first_viable (sources w (default ∅ (Some ∅)) (PathOf "input.pdf") k) /\
          ((exists src, src ∈ sources w (default ∅ (Some ∅)) (PathOf "input.pdf") k
                        /\ viable src) -> v <> [])
      | None => k ∉ metadata_keys
      end.
Proof.
  split; [reflexivity|]. split; [reflexivity|].
  apply (merged_metadata_is_resolved (world_of engine_without_ocr (document_of []))
           (document_of []) (PathOf "input.pdf") empty_state (Some ∅)); reflexivity.
Defined.

(** A merge that fails is logged and leaves the output document's metadata
    as it was. *)
Lemma failed_merge_keeps_metadata w src_doc input s :
  (exists e, metadata src_doc = Raise e) \/
  (exists m e, metadata src_doc = Ok m /\
               set_metadata (engine w) (meta_fixed w (default ∅ m) input) = Raise e) ->
  exists s', merge_metadata w src_doc input s = (Ok tt, s') /\
             out_meta s' = out_meta s /\ new_doc s' = new_doc s /\
             exists e, last (errors (report s')) = Some (SetMetadataFailed e).
Proof.
  unfold merge_metadata.
  unfold try_catch, modify, call, add_action, add_error, mbind, M_bind, mret, M_ret.
  intros [(e & ->)|(m & e & -> & Hset)]; simpl; [|rewrite Hset];
    (eexists; split; [reflexivity|]; repeat split; exists e; simpl; apply last_snoc).
Qed.

(** C5 as stated fails: the title always has a viable source, its
    generated default, yet when [set_metadata] raises the output document
    is left without a title. *)
Lemma failed_merge_leaves_title_unset :
  let doc := document_of [] in
  let w := world_of engine_refusing_metadata doc in
  let s' := (merge_metadata w doc (PathOf "input.pdf") empty_state).2 in
  (exists src, src ∈ sources w ∅ (PathOf "input.pdf") "title" /\ viable src) /\
  output_value s' "title" = None /\
  errors (report s') = [SetMetadataFailed "cannot set metadata"].
Proof.
  split; [|by split]. exists (str "input (repaired)"). split; [|done].
  right. left.
Qed.

(** ** The run as a whole *)

Ltac returns_walk :=
  repeat first
    [ apply returns_ret | apply returns_modify
    | apply returns_try_catch; intros ?
    | apply returns_bind; [|intros ?]
    | match goal with
      | |- returns (if ?b then _ else _) => destruct b
      end ].

Lemma page_loop_returns w use_ocr dpi remove_blank lang slots i :
  returns (page_loop w use_ocr dpi remove_blank lang i slots).
Proof.
  revert i. induction slots as [|slot rest IH]; intros i; simpl; returns_walk.
  apply IH.
Qed.

Lemma merge_metadata_returns w src_doc input : returns (merge_metadata w src_doc input).
Proof. unfold merge_metadata. returns_walk. Qed.

Lemma report_save_returns w path : returns (report_save w path).
Proof. unfold report_save. returns_walk. Qed.

Lemma run_repair_returns w args out rp : returns (run_repair w args out rp).
Proof.
  unfold run_repair. returns_walk.
Qed.

(** What [RepairReport.save] does, by the answer of the write. *)
Lemma report_save_run w path s :
  report_save w path s
  = match write_json w path with
    | Ok _ => (Ok tt, (add_action (SavedReport path)
                         (with_file path (fun s => ReportJson (report s)) s)).2)
    | Raise _ => (Ok tt, s)
    end.
Proof.
  unfold report_save, try_catch, modify, call, add_action, mbind, M_bind, mret, M_ret.
  by destruct (write_json w path).
Qed.

(** C9.  [RepairReport.save] never raises, whatever the report and the
    path.  When the write fails the state is what it was: the report data
    is not altered and nothing reaches the disk.  When it succeeds the
    file holds the report as it was, and the only change to the report is
    the action that says so. *)
Theorem report_save_never_raises w path s :
  exists s', report_save w path s = (Ok tt, s') /\
    match write_json w path with
    | Raise _ => s' = s
    | Ok _ =>
        disk s' = disk s ++ [(path, ReportJson (report s))] /\
        actions (report s') = actions (report s) ++ [SavedReport path] /\
        errors (report s') = errors (report s) /\
        pages (report s') = pages (report s)
    end.
Proof.
  rewrite report_save_run. destruct (write_json w path); eexists; (split; [reflexivity|]); done.
Qed.

(** *** The report and the record of the disk only grow *)

#[local] Instance log_extends_preorder : PreOrder log_extends.
Proof.
  split.
  - intros s. by repeat split.
  - intros s1 s2 s3 (? & ? & ? & ? & ?) (? & ? & ? & ? & ?).
    repeat split; [congruence|by etrans..].
Qed.

Lemma log_add_action msg : keeps log_extends (add_action msg).
Proof. intros s. repeat split; simpl; try done. by apply prefix_app_r. Qed.

Lemma log_add_error msg : keeps log_extends (add_error msg).
Proof. intros s. repeat split; simpl; try done. by apply prefix_app_r. Qed.

Lemma log_add_page_entry n entry : keeps log_extends (add_page_entry n entry).
Proof. intros s. repeat split; simpl; try done. by apply prefix_app_r. Qed.

Lemma log_with_file p f : keeps log_extends (modify (with_file p f)).
Proof. intros s. repeat split; simpl; try done. by apply prefix_app_r. Qed.

Lemma log_with_new_doc f : keeps log_extends (modify (with_new_doc f)).
Proof. intros s. by repeat split. Qed.

Lemma log_with_out_meta m : keeps log_extends (modify (with_out_meta m)).
Proof. intros s. by repeat split. Qed.

Lemma log_fresh_document : keeps log_extends (modify fresh_document).
Proof. intros s. by repeat split. Qed.

Lemma log_doc_last w : keeps log_extends (doc_last w).
Proof. intros s. unfold doc_last. destruct (last (new_doc s)); by repeat split. Qed.

Lemma log_doc_delete_last w : keeps log_extends (doc_delete_last w).
Proof. intros s. unfold doc_delete_last. destruct (new_doc s); by repeat split. Qed.

Lemma log_read {A} (f : St -> A) : keeps log_extends (fun s => (Ok (f s), s)).
Proof. intros s. by repeat split. Qed.

Ltac log_prim :=
  first [ apply log_add_action | apply log_add_error | apply log_add_page_entry
        | apply log_with_file | apply log_with_new_doc | apply log_with_out_meta
        | apply log_fresh_document | apply log_doc_last | apply log_doc_delete_last
        | apply log_read ].

Lemma page_loop_log w use_ocr dpi remove_blank lang slots i :
  keeps log_extends (page_loop w use_ocr dpi remove_blank lang i slots).
Proof.
  revert i. induction slots as [|slot rest IH]; intros i; simpl.
  - keeps_walk.
  - apply keeps_bind; [apply _| |intros _; apply IH].
    unfold process_page, page_body, page_outcome. keeps_walk; log_prim.
Qed.

Lemma extract_page_images_log w doc out_dir i image_list acc :
  keeps log_extends (extract_page_images w doc out_dir i image_list acc).
Proof.
  revert acc. induction image_list as [|xref rest IH]; intros acc; simpl.
  - keeps_walk.
  - keeps_walk; first [log_prim | apply IH].
Qed.

Lemma extract_images_loop_log w doc out_dir slots i acc :
  keeps log_extends (extract_images_loop w doc out_dir i slots acc).
Proof.
  revert i acc. induction slots as [|slot rest IH]; intros i acc; simpl.
  - keeps_walk.
  - keeps_walk; first [apply extract_page_images_log | apply IH].
Qed.

Lemma build_tail_log w src_doc input output use_ocr dpi (extract : bool) out_dir remove_blank lang :
  keeps log_extends
    ((if extract
      then try_catch (extract_images_from_doc w src_doc out_dir;; mret tt)
                     (fun e => add_error (ImageExtractionFailed e))
      else mret tt);;
     modify fresh_document;;
     page_loop w use_ocr dpi remove_blank lang 0 (doc_pages src_doc);;
     merge_metadata w src_doc input;;
     save_final w output).
Proof.
  apply keeps_bind; [apply _| |intros _].
  { destruct extract; [|keeps_walk]. unfold extract_images_from_doc.
    keeps_walk; first [log_prim | apply extract_images_loop_log]. }
  apply keeps_bind; [apply _|log_prim|intros _].
  apply keeps_bind; [apply _|apply page_loop_log|intros _].
  unfold merge_metadata, save_final, ensure_output_parent. keeps_walk; log_prim.
Qed.

Lemma build_repaired_pdf_log w input output use_ocr dpi extract out_dir remove_blank lang :
  keeps log_extends
    (build_repaired_pdf w input output use_ocr dpi extract out_dir remove_blank lang).
Proof.
  unfold build_repaired_pdf.
  apply keeps_bind; [apply _|log_prim|intros _].
  apply keeps_bind; [apply _|keeps_walk|intros src_doc].
  apply keeps_bind; [apply _|log_prim|intros _].
  apply build_tail_log.
Qed.

Lemma report_save_log w path : keeps log_extends (report_save w path).
Proof. unfold report_save. keeps_walk; log_prim. Qed.

Lemma try_simple_repair_log w input : keeps log_extends (try_simple_repair w input).
Proof. unfold try_simple_repair. keeps_walk; log_prim. Qed.

(** *** The stages of [main] *)

(** A guarded stage that starts by logging an action: it leaves that
    action in the report, after what was there. *)
Lemma guarded_stage_logs {A} (msg : Msg) (rest : M A) (handler : exn -> M A) (s : St) :
  keeps log_extends rest ->
  (forall e, keeps log_extends (handler e)) ->
  actions (report s) ++ [msg]
    `prefix_of` actions (report (try_catch (add_action msg;; rest) handler s).2) /\
  log_extends s (try_catch (add_action msg;; rest) handler s).2.
Proof.
  intros Hrest Hh.
  assert (log_extends (add_action msg s).2 (try_catch (add_action msg;; rest) handler s).2)
    as Hlog.
  { rewrite run_try_catch, run_bind. simpl. specialize (Hrest (add_action msg s).2).
    destruct (rest _) as [[a|e] s2]; simpl in *; [done|]. etrans; [exact Hrest|apply Hh]. }
  split.
  - by destruct Hlog as (_ & Hacts & _).
  - etrans; [apply log_add_action|exact Hlog].
Qed.

Lemma resave_stage w inp s :
  let stage := try_catch (try_simple_repair w inp)
                 (fun _ => add_action ProceedingWithOriginal;; mret inp) in
  exists s',
    stage s = (Ok (working_input w inp), s') /\
    actions (report s) ++ [AttemptingResave] `prefix_of` actions (report s') /\
    log_extends s s' /\
    new_doc s' = new_doc s /\ out_meta s' = out_meta s /\
    pages (report s') = pages (report s).
Proof.
  intros stage.
  destruct (guarded_stage_logs AttemptingResave
              (repaired ← call (renamed w inp (Resaved inp));
               try_catch
                 (doc ← call (fitz_open w inp);
                  meta ← call (metadata doc);
                  add_action (OriginalMetadata meta);;
                  call (save_document (engine w) repaired);;
                  modify (with_file repaired (fun _ => ResaveOf inp));;
                  add_action (SavedIntermediate repaired);;
                  mret repaired)
                 (fun e =>
                  add_error (ResaveFailed e);;
                  (if path_exists w repaired
                   then try_catch (call (unlink w repaired);;
                                   modify (with_file repaired (fun _ => Removed)))
                                  (fun _ => mret tt)
                   else mret tt);;
                  throw e))
              (fun _ => add_action ProceedingWithOriginal;; mret inp) s) as [Hacts Hlog].
  { keeps_walk; log_prim. }
  { intros e. keeps_walk; log_prim. }
  change (try_catch _ _ s) with (stage s) in Hacts, Hlog.
  assert (exists s', stage s = (Ok (working_input w inp), s') /\
                     new_doc s' = new_doc s /\ out_meta s' = out_meta s /\
                     pages (report s') = pages (report s)) as (s' & E & Hdoc).
  { unfold working_input, resave_succeeds, resave_attempt, renamed.
    unfold stage, try_simple_repair, renamed, try_catch, add_action, add_error, modify, call,
      throw, mbind, M_bind, result_bind, mret, M_ret, result_ret. simpl.
    destruct (empty_name w inp); simpl; [by eexists|].
    destruct (fitz_open w inp) as [doc|?]; simpl;
      [destruct (metadata doc); simpl;
         [destruct (save_document (engine w) (Resaved inp)); simpl|]|];
      repeat case_match; simplify_eq/=; by eexists. }
  exists s'. rewrite E in Hacts, Hlog. auto.
Qed.

Lemma build_stage w working output use_ocr dpi extract out_dir remove_blank lang s :
  let stage := try_catch
                 (build_repaired_pdf w working output use_ocr dpi extract out_dir
                    remove_blank lang)
                 (fun e => add_error (OverallFailed e)) in
  exists s',
    stage s = (Ok tt, s') /\
    actions (report s) ++ [OpeningSource working] `prefix_of` actions (report s') /\
    log_extends s s'.
Proof.
  intros stage.
  destruct (guarded_stage_logs (OpeningSource working)
              (src_doc ← call (fitz_open w working);
               add_action (SourceHasPages (length (doc_pages src_doc)));;
               (if extract
                then try_catch (extract_images_from_doc w src_doc out_dir;; mret tt)
                               (fun e => add_error (ImageExtractionFailed e))
                else mret tt);;
               modify fresh_document;;
               page_loop w use_ocr dpi remove_blank lang 0 (doc_pages src_doc);;
               merge_metadata w src_doc working;;
               save_final w output)
              (fun e => add_error (OverallFailed e)) s) as [Hacts Hlog].
  { apply keeps_bind; [apply _|keeps_walk|intros src_doc].
    apply keeps_bind; [apply _|log_prim|intros _]. apply build_tail_log. }
  { intros e. log_prim. }
  change (try_catch _ _ s) with (stage s) in Hacts, Hlog.
  assert (returns stage) as Hret by (unfold stage; returns_walk).
  destruct (Hret s) as ([] & s' & E). exists s'. rewrite E in Hacts, Hlog. auto.
Qed.

Lemma prefix_snoc_elem {A} (x : A) (l k : list A) : l ++ [x] `prefix_of` k -> x ∈ k.
Proof. intros [k' ->]. apply elem_of_app. left. apply elem_of_app. right. by left. Qed.

Lemma prefix_keeps_head {A} (x : A) (l k : list A) :
  head l = Some x -> l `prefix_of` k -> head k = Some x.
Proof. intros H [k' ->]. by destruct l. Qed.

(** The three stages after the backup, one after the other; none of them
    lets an exception escape. *)
Lemma repair_pipeline_stages w args out rp s :
  let working := working_input w (PathOf (arg_input args)) in
  exists s2 s3 s4,
    repair_pipeline w args out rp s = (Ok tt, s4) /\
    actions (report s) ++ [AttemptingResave] `prefix_of` actions (report s2) /\
    log_extends s s2 /\
    actions (report s2) ++ [OpeningSource working] `prefix_of` actions (report s3) /\
    log_extends s2 s3 /\
    report_save w rp s3 = (Ok tt, s4).
Proof.
  intros working. unfold repair_pipeline.
  destruct (resave_stage w (PathOf (arg_input args)) s) as (s2 & E2 & Ha2 & Hl2 & _).
  fold working in E2.
  destruct (build_stage w working out (arg_ocr args) (arg_dpi args)
              (bool_decide (is_Some (path_if_given (arg_extract_images args))))
              (default (PathOf ".") (path_if_given (arg_extract_images args)))
              (arg_remove_blank args) (arg_ocr_lang args) s2) as (s3 & E3 & Ha3 & Hl3).
  destruct (report_save_returns w rp s3) as ([] & s4 & E4).
  exists s2, s3, s4.
  rewrite run_bind, E2, run_bind. cbv zeta. rewrite E3, run_try_catch, E4. auto 10.
Qed.

(** The guarded backup of lines 341-344, by the answers of its calls. *)
Lemma backup_stage_run w inp s :
  try_catch (backup_file w inp;; mret tt) (fun e => add_error (BackupFailed e)) s
  = match backup_attempt w inp with
    | Ok _ =>
        let dst := BackupOf inp (utc_stamp w) in
        (Ok tt, (add_action (BackedUp dst) (with_file dst (fun _ => CopyOf inp) s)).2)
    | Raise e => add_error (BackupFailed e) s
    end.
Proof.
  unfold backup_attempt, backup_file, renamed, try_catch, add_action, add_error, modify, call,
    mbind, M_bind, result_bind, mret, M_ret.
  destruct (empty_name w inp); [done|]. by destruct (copy2 w inp _).
Qed.

(** With a name to derive from, the backup is the copy. *)
Lemma backup_attempt_named w inp :
  empty_name w inp = None ->
  backup_attempt w inp = copy2 w inp (BackupOf inp (utc_stamp w)).
Proof. intros H. unfold backup_attempt, renamed. by rewrite H. Qed.

(** Past the existence check and lines 336-337, [main] is the run. *)
Lemma main_run w args out rp :
  path_exists w (PathOf (arg_input args)) = true ->
  output_path w args = Ok out ->
  report_path w args = Ok rp ->
  main w args
  = Ran (run_repair w args out rp (initial_state args)).1
        (run_repair w args out rp (initial_state args)).2.
Proof.
  intros Hexists Hout Hrp. unfold main. rewrite Hexists, Hout, Hrp. simpl.
  by destruct (run_repair w args out rp (initial_state args)).
Qed.

(** An input with a name gets both paths, given or derived. *)
Lemma named_input_has_paths w args :
  empty_name w (PathOf (arg_input args)) = None ->
  exists out rp, output_path w args = Ok out /\ report_path w args = Ok rp.
Proof.
  intros H. unfold output_path, report_path, renamed. rewrite H.
  destruct (path_if_given (arg_output args)), (path_if_given (arg_report args)); by eexists _, _.
Qed.

(** C10.  When the backup raises, be it in deriving the name of the copy
    (line 98) or in copying (line 99), [main] records the error and goes
    on: it runs the very pipeline it runs after a successful backup, from
    the state in which the error is recorded.  The resave is attempted,
    the rebuild is started on the input the resave leaves to work on, the
    report is flushed, and [main] ends normally.  The flushed report
    starts its errors with the failed backup.  The backup is attempted
    once lines 336-337 have given the two paths. *)
Theorem backup_failure_is_not_fatal w args out rp e :
  let inp := PathOf (arg_input args) in
  path_exists w inp = true ->
  output_path w args = Ok out ->
  report_path w args = Ok rp ->
  backup_attempt w inp = Raise e ->
  exists s,
    main w args = Ran (Ok tt) s /\
    repair_pipeline w args out rp (add_error (BackupFailed e) (initial_state args)).2
    = (Ok tt, s) /\
    head (errors (report s)) = Some (BackupFailed e) /\
    AttemptingResave ∈ actions (report s) /\
    OpeningSource (working_input w inp) ∈ actions (report s) /\
    match write_json w rp with
    | Ok _ => exists r, last (disk s) = Some (rp, ReportJson r) /\
                        head (errors r) = Some (BackupFailed e)
    | Raise _ => True
    end.
Proof.
  intros inp Hexists Hout Hrp Hbackup.
  set (s1 := (add_error (BackupFailed e) (initial_state args)).2).
  destruct (repair_pipeline_stages w args out rp s1)
    as (s2 & s3 & s4 & Erun & Ha2 & Hl2 & Ha3 & Hl3 & E4).
  exists s4.
  assert (head (errors (report s3)) = Some (BackupFailed e)) as Herr3.
  { apply (prefix_keeps_head _ (errors (report s1))); [done|].
    destruct Hl2 as (_ & _ & H2 & _), Hl3 as (_ & _ & H3 & _). by etrans. }
  assert (AttemptingResave ∈ actions (report s3)) as Hres3.
  { apply (prefix_snoc_elem _ (actions (report s1))). etrans; [exact Ha2|].
    by destruct Hl3 as (_ & H3 & _). }
  assert (OpeningSource (working_input w inp) ∈ actions (report s3)) as Hopen3
    by apply (prefix_snoc_elem _ _ _ Ha3).
  split.
  { rewrite (main_run w args out rp Hexists Hout Hrp).
    unfold run_repair. fold inp. rewrite run_bind, backup_stage_run, Hbackup.
    change (add_error (BackupFailed e) (initial_state args)) with (Ok tt, s1).
    cbv beta iota. by rewrite Erun. }
  split; [done|].
  rewrite report_save_run in E4.
  destruct (write_json w rp); injection E4 as <-; simpl.
  - split; [done|]. split; [apply elem_of_app; by left|].
    split; [apply elem_of_app; by left|].
    exists (report s3). by rewrite last_snoc.
  - by repeat split.
Qed.

Lemma backup_failure_is_not_fatal_witness :
  let w := world_without_backup (working_engine [Ok (str "scan")])
             (document_of [Ok (text_page hello_line); Ok scanned_page]) in
  exists s,
    main w sample_args = Ran (Ok tt) s /\
    head (errors (report s)) = Some (BackupFailed "permission denied") /\
    AttemptingResave ∈ actions (report s) /\
    length (pages (report s)) = 2.
Proof.
  destruct (backup_failure_is_not_fatal
              (world_without_backup (working_engine [Ok (str "scan")])
                 (document_of [Ok (text_page hello_line); Ok scanned_page]))
              sample_args (Repaired (PathOf "input.pdf")) (ReportOf (PathOf "input.pdf"))
              "permission denied" eq_refl eq_refl eq_refl eq_refl)
    as (s & Hmain & _ & Herr & Hres & _).
  exists s. split; [exact Hmain|]. split; [exact Herr|]. split; [exact Hres|].
  vm_compute in Hmain. injection Hmain as <-. reflexivity.
Defined.

(** *** A final save that fails *)

Lemma save_final_run w output s :
  save_final w output s
  = match final_save w (new_doc s) output with
    | Ok _ => (Ok tt, (add_action (SavedFinal output)
                         (with_file output (fun s => OutputPdf (new_doc s) (out_meta s)) s)).2)
    | Raise e => (Raise e, (add_error (SaveFinalFailed e) s).2)
    end.
Proof.
  unfold final_save, save_final, ensure_output_parent, try_catch, call, modify, throw,
    add_action, add_error, mbind, M_bind, result_bind, mret, M_ret.
  destruct (mkdir w (Parent output)); simpl; [|done].
  by destruct (save_output (engine w) (new_doc s) output).
Qed.

(** [build_repaired_pdf], stage by stage. *)
Lemma build_repaired_pdf_run w input output use_ocr dpi (extract : bool) out_dir
    remove_blank lang s :
  build_repaired_pdf w input output use_ocr dpi extract out_dir remove_blank lang s
  = let s1 := (add_action (OpeningSource input) s).2 in
    match fitz_open w input with
    | Raise e => (Raise e, s1)
    | Ok doc =>
        let s2 := (add_action (SourceHasPages (length (doc_pages doc))) s1).2 in
        match (if extract
               then try_catch (extract_images_from_doc w doc out_dir;; mret tt)
                              (fun e => add_error (ImageExtractionFailed e))
               else mret tt) s2 with
        | (Ok _, s3) =>
            (modify fresh_document;;
             page_loop w use_ocr dpi remove_blank lang 0 (doc_pages doc);;
             merge_metadata w doc input;;
             save_final w output) s3
        | (Raise e, s3) => (Raise e, s3)
        end
    end.
Proof.
  unfold build_repaired_pdf. rewrite run_bind. simpl. rewrite run_bind. unfold call at 1.
  destruct (fitz_open w input) as [doc|e]; [|done]. by rewrite run_bind.
Qed.

(** The rebuild proper, up to the final save, never raises. *)
Lemma rebuild_reaches_final_save w doc input output use_ocr dpi remove_blank lang s :
  exists s5,
    (modify fresh_document;;
     page_loop w use_ocr dpi remove_blank lang 0 (doc_pages doc);;
     merge_metadata w doc input;;
     save_final w output) s
    = save_final w output s5.
Proof.
  rewrite run_bind. simpl. rewrite run_bind.
  destruct (page_loop_returns w use_ocr dpi remove_blank lang (doc_pages doc) 0
              (fresh_document s)) as ([] & s4 & ->).
  rewrite run_bind. destruct (merge_metadata_returns w doc input s4) as ([] & s5 & ->).
  by exists s5.
Qed.

(** When the input the rebuild works on opens, the run gets to the final
    save, in some state; what follows is the handler of line 361, if the
    save raises, and the flush of the report. *)
Lemma run_repair_reaches_final_save w args out rp doc :
  fitz_open w (working_input w (PathOf (arg_input args))) = Ok doc ->
  exists s5,
    run_repair w args out rp (initial_state args)
    = report_save w rp
        match save_final w out s5 with
        | (Ok _, s6) => s6
        | (Raise e, s6) => (add_error (OverallFailed e) s6).2
        end.
Proof.
  intros Hdoc. unfold run_repair. set (inp := PathOf (arg_input args)) in *.
  rewrite run_bind.
  assert (returns (try_catch (backup_file w inp;; mret tt)
                     (fun e => add_error (BackupFailed e)))) as Hbackup by returns_walk.
  destruct (Hbackup (initial_state args)) as ([] & s1 & ->).
  unfold repair_pipeline. fold inp. rewrite run_bind.
  destruct (resave_stage w inp s1) as (s2 & -> & _).
  rewrite run_bind, run_try_catch. cbv zeta.
  rewrite build_repaired_pdf_run. cbv zeta. rewrite Hdoc.
  set (s2' := (add_action _ (add_action _ s2).2).2).
  assert (returns (if bool_decide (is_Some (path_if_given (arg_extract_images args)))
                   then try_catch
                          (extract_images_from_doc w doc
                             (default (PathOf ".") (path_if_given (arg_extract_images args)));;
                           mret tt)
                          (fun e => add_error (ImageExtractionFailed e))
                   else mret tt)) as Hextract by (case_bool_decide; returns_walk).
  destruct (Hextract s2') as ([] & s3 & ->).
  destruct (rebuild_reaches_final_save w doc (working_input w inp) out (arg_ocr args)
              (arg_dpi args) (arg_remove_blank args) (arg_ocr_lang args) s3) as (s5 & ->).
  exists s5.
  destruct (save_final w out s5) as [[[]|e] s6]; simpl.
  - rewrite run_try_catch. by destruct (report_save_returns w rp s6) as ([] & s7 & ->).
  - rewrite run_try_catch.
    by destruct (report_save_returns w rp (with_report
         (fun r => {| input_path := input_path r; actions := actions r;
                      errors := errors r ++ [OverallFailed e]; pages := pages r |}) s6))
      as ([] & s7 & ->).
Qed.

(** C7.  On a run that gets as far as the final save (the input exists,
    lines 336-337 give the two paths, and the input the rebuild works on
    opens): when saving the output document as it was built fails, the
    error escapes [build_repaired_pdf], [main] records it twice (as the
    failed save, then as the failed repair), and still flushes the
    report: if the write goes through, the file at the report path is the
    last one written, and it holds the report with both errors.  [main]
    ends normally. *)
Theorem failed_final_save_still_flushes_report w args out rp doc e :
  let inp := PathOf (arg_input args) in
  let s := (run_repair w args out rp (initial_state args)).2 in
  path_exists w inp = true ->
  output_path w args = Ok out ->
  report_path w args = Ok rp ->
  fitz_open w (working_input w inp) = Ok doc ->
  final_save w (new_doc s) out = Raise e ->
  main w args = Ran (Ok tt) s /\
  exists errs,
    errors (report s) = errs ++ [SaveFinalFailed e; OverallFailed e] /\
    match write_json w rp with
    | Ok _ => exists r, last (disk s) = Some (rp, ReportJson r) /\
                        errors r = errs ++ [SaveFinalFailed e; OverallFailed e] /\
                        last (actions (report s)) = Some (SavedReport rp)
    | Raise _ => True
    end.
Proof.
  intros inp s Hexists Hout Hrp Hdoc Hsave.
  rewrite (main_run w args out rp Hexists Hout Hrp). fold s.
  destruct (run_repair_returns w args out rp (initial_state args)) as ([] & s' & E).
  split; [unfold s; by rewrite E|]. clear E s'.
  destruct (run_repair_reaches_final_save w args out rp doc Hdoc) as (s5 & E).
  unfold s in *. clear s. rewrite E in *. clear E.
  rewrite save_final_run in *. rewrite report_save_run in *.
  destruct (final_save w (new_doc s5) out) as [[]|e1] eqn:Efs.
  - destruct (write_json w rp); simpl in Hsave; congruence.
  - assert (e1 = e) as ->
      by (destruct (write_json w rp); simpl in Hsave; congruence).
    exists (errors (report s5)).
    destruct (write_json w rp); simpl; rewrite <- ?app_assoc; [|done].
    split; [done|]. eexists. rewrite !last_snoc. by repeat split.
Qed.

Lemma failed_final_save_still_flushes_report_witness :
  let w := world_of engine_failing_save
             (document_of [Ok (text_page hello_line); Ok scanned_page]) in
  let out := Repaired (PathOf "input.pdf") in
  let rp := ReportOf (PathOf "input.pdf") in
  let s := (run_repair w sample_args out rp (initial_state sample_args)).2 in
  length (new_doc s) = 2 /\
  final_save w (new_doc s) out = Raise "disk full" /\
  main w sample_args = Ran (Ok tt) s /\
  exists errs,
    errors (report s) = errs ++ [SaveFinalFailed "disk full"; OverallFailed "disk full"] /\
    exists r, last (disk s) = Some (rp, ReportJson r) /\
              errors r = errs ++ [SaveFinalFailed "disk full"; OverallFailed "disk full"] /\
              last (actions (report s)) = Some (SavedReport rp).
Proof.
  intros w out rp s. split; [reflexivity|]. split; [reflexivity|].
  apply (failed_final_save_still_flushes_report w sample_args out rp
           (document_of [Ok (text_page hello_line); Ok scanned_page]) "disk full");
    reflexivity.
Defined.

(** * Further properties of the script *)

(** ** The log *)

(** X1.  Over a whole run the report is append-only: the actions, the
    errors and the page entries it starts with are a prefix of those it
    ends with, and the input path recorded in it is never changed. *)
Theorem report_is_append_only w args out rp s :
  let s' := (run_repair w args out rp s).2 in
  input_path (report s') = input_path (report s) /\
  actions (report s) `prefix_of` actions (report s') /\
  errors (report s) `prefix_of` errors (report s') /\
  pages (report s) `prefix_of` pages (report s').
Proof.
  assert (keeps log_extends (run_repair w args out rp)) as H.
  { unfold run_repair, repair_pipeline, backup_file, try_simple_repair.
    keeps_walk;
      first [ log_prim | apply extract_images_loop_log | apply page_loop_log ]. }
  destruct (H s) as (? & ? & ? & ? & _). done.
Qed.

(** ** The page entries *)

Lemma insert_page_entry w use_ocr dpi lang i page s info s' :
  insert_page w use_ocr dpi lang i page (new_page_info (i + 1)) s = (Ok info, s') ->
  entry_keys_ok use_ocr info = true /\ page_index info = i + 1 /\
  removed_blank info = false.
Proof.
  run_page. destruct use_ocr; repeat case_match; intros; simplify_eq/=; done.
Qed.

Lemma prune_last_entry w i info s info' s' :
  prune_last w i info s = (Ok info', s') ->
  info' = info \/ info' = set_removed_blank info.
Proof.
  run_page. repeat case_match; intros; simplify_eq/=; auto.
Qed.

Lemma page_outcome_entry w use_ocr dpi remove_blank lang i slot s info s' :
  page_outcome w use_ocr dpi remove_blank lang i slot s = (Ok info, s') ->
  entry_keys_ok use_ocr info = true /\ page_index info = i + 1.
Proof.
  unfold page_outcome. rewrite run_bind. unfold call at 1.
  destruct slot as [page|e]; [|discriminate]. rewrite run_bind.
  destruct (insert_page _ _ _ _ _ _ _ s) as [[info0|e] s0] eqn:E; [|discriminate].
  apply insert_page_entry in E as (Hk & Hi & _).
  destruct remove_blank.
  - intros [-> | ->]%prune_last_entry; [done|].
    split; [|done]. revert Hk. unfold entry_keys_ok. simpl. done.
  - by intros [= <- <-].
Qed.

(** What one iteration adds to the page entries. *)
Lemma process_page_entry w use_ocr dpi remove_blank lang i slot s :
  let s' := (process_page w use_ocr dpi remove_blank lang i slot s).2 in
  pages (report s') = pages (report s) \/
  exists info, pages (report s') = pages (report s) ++ [(i + 1, info)] /\
               entry_keys_ok use_ocr info = true /\ page_index info = i + 1.
Proof.
  unfold process_page, page_body. simpl. rewrite run_try_catch, run_bind.
  destruct (page_outcome_quiet w use_ocr dpi remove_blank lang i slot s) as [Hp _].
  destruct (page_outcome _ _ _ _ _ _ _ s) as [[info|e] s1] eqn:E; simpl in *.
  - right. exists info. rewrite Hp. split; [done|]. by apply page_outcome_entry in E.
  - by left.
Qed.

(** X2.  The entries the page loop adds are numbered in source order:
    their page numbers strictly increase and lie in the range of the pages
    processed; each entry's [page_index] is its page number; and the keys
    of each entry are those of the branch that handled the page. *)
Theorem page_entries_are_ordered_and_well_formed w use_ocr dpi remove_blank lang slots i s :
  exists added,
    pages (report (page_loop w use_ocr dpi remove_blank lang i slots s).2)
    = pages (report s) ++ added /\
    StronglySorted lt (added.*1) /\
    Forall (fun e => i < e.1 <= i + length slots /\ page_index e.2 = e.1 /\
                     entry_keys_ok use_ocr e.2 = true) added.
Proof.
  revert i s. induction slots as [|slot rest IH]; intros i s; simpl.
  - exists []. rewrite app_nil_r. repeat constructor.
  - rewrite run_bind.
    pose proof (process_page_entry w use_ocr dpi remove_blank lang i slot s) as H1.
    destruct (process_page_records w use_ocr dpi remove_blank lang i slot s) as (s1 & E & _).
    rewrite E in *. simpl in H1.
    destruct (IH (S i) s1) as (added & -> & Hsorted & Hall).
    assert (Forall (fun e : nat * PageInfo =>
                      i < e.1 <= i + S (length rest) /\ page_index e.2 = e.1 /\
                      entry_keys_ok use_ocr e.2 = true) added) as Hall'.
    { eapply Forall_impl; [exact Hall|]. simpl. intros e (? & ? & ?). split; [lia|done]. }
    destruct H1 as [-> | (info & -> & Hk & Hi)].
    + by exists added.
    + exists ((i + 1, info) :: added). rewrite <- app_assoc. split; [done|]. split.
      * simpl. constructor; [done|]. apply Forall_fmap.
        eapply Forall_impl; [exact Hall|]. simpl. intros e (? & _). lia.
      * constructor; [|done]. simpl. split; [lia|done].
Qed.

(** ** The pages of the output document *)

(** What the insertion phase appends: nothing made by [new_page], or,
    when it returns, a single such page; and no page of Tesseract's when
    OCR is off. *)
Lemma insert_page_kinds w use_ocr dpi lang i page info s :
  exists qs,
    new_doc (insert_page w use_ocr dpi lang i page info s).2 = new_doc s ++ qs /\
    (Forall (fun q => is_new_page q = false) qs \/
     exists info' w' h img, (insert_page w use_ocr dpi lang i page info s).1 = Ok info' /\
                            qs = [NewPage i w' h img]) /\
    (use_ocr = false -> Forall (fun q => is_ocr_page q = false) qs).
Proof.
  run_page. unfold with_new_doc, with_report.
  destruct use_ocr; repeat case_match; simplify_eq/=; rewrite ?place_image_snoc;
    first [ exists []; split; [by rewrite app_nil_r|]; split; [left|]; by constructor
          | eexists [Copied _ _]; split; [reflexivity|]; split; [left|];
            by repeat constructor
          | eexists [NewPage _ _ _ _]; split; [reflexivity|]; split;
            [right; by eexists _, _, _, _|by repeat constructor]
          | eexists; split; [reflexivity|]; split; [left|done];
            apply Forall_forall; intros q Hq;
            apply list_elem_of_fmap in Hq as (t & -> & _); reflexivity ].
Qed.

Lemma prune_last_new_page w j info s d i w' h img :
  new_doc s = d ++ [NewPage i w' h img] ->
  new_doc (prune_last w j info s).2 = d.
Proof.
  intros E. run_page. rewrite E, last_snoc. simpl.
  destruct (new_doc s) as [|q l] eqn:Ed.
  - by destruct d.
  - simpl. rewrite Ed, E. apply removelast_last.
Qed.

Lemma Forall_removelast {A} (P : A -> Prop) (l : list A) :
  Forall P l -> Forall P (removelast l).
Proof. intros H. rewrite removelast_firstn_len. by apply Forall_take. Qed.

Lemma process_page_without_new_pages w use_ocr dpi lang i slot s :
  Forall (fun q => is_new_page q = false) (new_doc s) ->
  Forall (fun q => is_new_page q = false)
    (new_doc (process_page w use_ocr dpi true lang i slot s).2).
Proof.
  intros H. rewrite process_page_document. unfold page_outcome.
  rewrite run_bind. unfold call at 1. destruct slot as [page|e]; [|done].
  rewrite run_bind.
  destruct (insert_page_kinds w use_ocr dpi lang i page (new_page_info (i + 1)) s)
    as (qs & Hdoc & Hkind & _).
  destruct (insert_page _ _ _ _ _ _ _ s) as [[info|e] s1]; simpl in *.
  - destruct Hkind as [Hqs|(info' & w' & h & img & _ & ->)].
    + assert (Forall (fun q => is_new_page q = false) (new_doc s1)) as H1
        by (rewrite Hdoc; by apply Forall_app).
      destruct (prune_last_drops_at_most_last w i info s1) as [-> | ->];
        [done|by apply Forall_removelast].
    + by rewrite (prune_last_new_page w i info s1 (new_doc s) i w' h img Hdoc).
  - destruct Hkind as [Hqs|(info' & ? & ? & ? & ? & _)]; [|done].
    rewrite Hdoc. by apply Forall_app.
Qed.

Lemma page_loop_without_new_pages w use_ocr dpi lang slots i s :
  Forall (fun q => is_new_page q = false) (new_doc s) ->
  Forall (fun q => is_new_page q = false)
    (new_doc (page_loop w use_ocr dpi true lang i slots s).2).
Proof.
  revert i s. induction slots as [|slot rest IH]; intros i s H; simpl; [done|].
  rewrite run_bind.
  pose proof (process_page_without_new_pages w use_ocr dpi lang i slot s H) as H1.
  destruct (process_page_records w use_ocr dpi true lang i slot s) as (s1 & E & _).
  rewrite E in *. by apply IH.
Qed.

(** X3.  With blank-page removal on, no page made by [new_page] survives
    in the output document, with or without OCR: a page that holds only a
    rasterised image (or nothing, after a failed insertion) has no text,
    so the pruning step of the same iteration deletes it. *)
Theorem pruning_drops_every_image_page w use_ocr dpi lang slots s :
  new_doc s = [] ->
  Forall (fun q => is_new_page q = false)
    (new_doc (page_loop w use_ocr dpi true lang 0 slots s).2).
Proof.
  intros E. apply page_loop_without_new_pages. rewrite E. constructor.
Qed.

Lemma pruning_drops_every_image_page_witness :
  let slots := [Ok (text_page hello_line); Ok scanned_page; Ok scanned_page] in
  let w := world_of engine_without_ocr (document_of slots) in
  let s' := (page_loop w false 300 true "eng" 0 slots empty_state).2 in
  new_doc empty_state = [] /\
  Forall (fun q => is_new_page q = false) (new_doc s') /\
  origin <$> new_doc s' = [0] /\
  (fun e => (e.1, image_inserted e.2, removed_blank e.2)) <$> pages (report s')
  = [(1, false, false); (2, true, true); (3, true, true)].
Proof.
  split; [reflexivity|]. split; [|by split].
  apply (pruning_drops_every_image_page
           (world_of engine_without_ocr
              (document_of [Ok (text_page hello_line); Ok scanned_page; Ok scanned_page]))
           false 300 "eng" [Ok (text_page hello_line); Ok scanned_page; Ok scanned_page]
           empty_state).
  reflexivity.
Defined.

Lemma entry_keys_without_ocr (e : PageInfo) :
  entry_keys_ok false e = true ->
  ocr e = None /\ fallback_image_inserted e = false /\ fallback_error e = None.
Proof.
  unfold entry_keys_ok. destruct (action e) as [[]|]; [| |done];
    rewrite !andb_true_iff, ?negb_true_iff, !bool_decide_eq_true; tauto.
Qed.

Lemma process_page_without_ocr w dpi remove_blank lang i slot s :
  let P s := Forall (fun q => is_ocr_page q = false) (new_doc s) /\
             Forall (fun e : nat * PageInfo =>
                       ocr e.2 = None /\ fallback_image_inserted e.2 = false /\
                       fallback_error e.2 = None) (pages (report s)) in
  P s -> P (process_page w false dpi remove_blank lang i slot s).2.
Proof.
  intros P [Hdoc Hentries]. split.
  - rewrite process_page_document. unfold page_outcome.
    rewrite run_bind. unfold call at 1. destruct slot as [page|e]; [|done].
    rewrite run_bind.
    destruct (insert_page_kinds w false dpi lang i page (new_page_info (i + 1)) s)
      as (qs & Hqs & _ & Hocr).
    assert (Forall (fun q => is_ocr_page q = false)
              (new_doc (insert_page w false dpi lang i page (new_page_info (i + 1)) s).2))
      as H1 by (rewrite Hqs; apply Forall_app; auto).
    destruct (insert_page _ _ _ _ _ _ _ s) as [[info|e] s1]; simpl in *; [|done].
    destruct remove_blank; [|done].
    destruct (prune_last_drops_at_most_last w i info s1) as [-> | ->];
      [done|by apply Forall_removelast].
  - destruct (process_page_entry w false dpi remove_blank lang i slot s)
      as [-> | (info & -> & Hk & _)]; [done|].
    apply Forall_app. split; [done|]. constructor; [|constructor].
    by apply entry_keys_without_ocr.
Qed.

(** X4.  With OCR off nothing of the OCR path shows up: the output
    document holds no page of Tesseract's, and no page entry carries the
    [ocr], [fallback_image_inserted] or [fallback_error] key. *)
Theorem without_ocr_nothing_is_ocr w dpi remove_blank lang slots i s :
  new_doc s = [] ->
  pages (report s) = [] ->
  let s' := (page_loop w false dpi remove_blank lang i slots s).2 in
  Forall (fun q => is_ocr_page q = false) (new_doc s') /\
  Forall (fun e : nat * PageInfo =>
            ocr e.2 = None /\ fallback_image_inserted e.2 = false /\
            fallback_error e.2 = None) (pages (report s')).
Proof.
  intros Hd Hp.
  assert (Forall (fun q => is_ocr_page q = false) (new_doc s) /\
          Forall (fun e : nat * PageInfo =>
                    ocr e.2 = None /\ fallback_image_inserted e.2 = false /\
                    fallback_error e.2 = None) (pages (report s))) as H
    by (rewrite Hd, Hp; split; constructor).
  clear Hd Hp. revert i s H. induction slots as [|slot rest IH]; intros i s H; simpl; [done|].
  rewrite run_bind.
  pose proof (process_page_without_ocr w dpi remove_blank lang i slot s H) as H1.
  destruct (process_page_records w false dpi remove_blank lang i slot s) as (s1 & E & _).
  rewrite E in *. by apply IH.
Qed.

Lemma without_ocr_nothing_is_ocr_witness :
  let slots := [Ok (text_page hello_line); Ok scanned_page; Ok unrenderable_page] in
  let w := world_of (working_engine [Ok (str "scan")]) (document_of slots) in
  let s' := (page_loop w false 300 false "eng" 0 slots empty_state).2 in
  Forall (fun q => is_ocr_page q = false) (new_doc s') /\
  Forall (fun e : nat * PageInfo =>
            ocr e.2 = None /\ fallback_image_inserted e.2 = false /\
            fallback_error e.2 = None) (pages (report s')).
Proof.
  apply (without_ocr_nothing_is_ocr
           (world_of (working_engine [Ok (str "scan")])
              (document_of [Ok (text_page hello_line); Ok scanned_page; Ok unrenderable_page]))
           300 false "eng"
           [Ok (text_page hello_line); Ok scanned_page; Ok unrenderable_page] 0 empty_state);
    reflexivity.
Defined.

Lemma process_page_without_pruning w use_ocr dpi lang i slot s :
  exists qs, new_doc (process_page w use_ocr dpi false lang i slot s).2 = new_doc s ++ qs /\
             Forall (fun q => origin q = i) qs.
Proof.
  rewrite process_page_document. unfold page_outcome.
  rewrite run_bind. unfold call at 1. destruct slot as [page|e].
  - rewrite run_bind.
    destruct (insert_page_appends w use_ocr dpi lang i page (new_page_info (i + 1)) s)
      as (qs & Hqs & Hi).
    exists qs. split; [|done].
    by destruct (insert_page _ _ _ _ _ _ _ s) as [[info|e] s1].
  - exists []. split; [by rewrite app_nil_r|constructor].
Qed.

(** X5.  With blank-page removal off the output document only grows:
    no statement of the page loop deletes or reorders a page, so the
    document at the start is a prefix of the document at the end, and
    what follows it is in source order. *)
Theorem without_pruning_document_only_grows w use_ocr dpi lang slots i s :
  exists added,
    new_doc (page_loop w use_ocr dpi false lang i slots s).2 = new_doc s ++ added /\
    StronglySorted le (origin <$> added) /\
    Forall (fun q => i <= origin q < i + length slots) added.
Proof.
  revert i s. induction slots as [|slot rest IH]; intros i s; simpl.
  - exists []. rewrite app_nil_r. repeat constructor.
  - rewrite run_bind.
    destruct (process_page_without_pruning w use_ocr dpi lang i slot s) as (qs & Hqs & Hi).
    destruct (process_page_records w use_ocr dpi false lang i slot s) as (s1 & E & _).
    rewrite E in *. simpl in Hqs.
    destruct (IH (S i) s1) as (added & -> & Hsorted & Hall).
    exists (qs ++ added). rewrite Hqs, <- app_assoc. split; [done|]. split.
    + rewrite fmap_app. clear Hqs. induction Hi as [|q qs Hq Hi IHqs]; simpl; [done|].
      constructor; [done|]. apply Forall_app. split.
      * apply Forall_fmap. eapply Forall_impl; [exact Hi|]. simpl. lia.
      * apply Forall_fmap. eapply Forall_impl; [exact Hall|]. simpl. lia.
    + apply Forall_app. split.
      * eapply Forall_impl; [exact Hi|]. simpl. lia.
      * eapply Forall_impl; [exact Hall|]. simpl. lia.
Qed.

(** ** The branches of one iteration *)

(** X6.  When the OCR attempt of a page without text goes through, every
    page of the document Tesseract returned is appended, in order (none,
    if that document is empty), the entry says [applied], no image
    fallback is tried and no error is logged. *)
Theorem successful_ocr_appends_every_page w dpi lang i page s t :
  page_has_text page = Ok false ->
  ocr_attempt w page dpi lang = Ok t ->
  exists s',
    insert_page w true dpi lang i page (new_page_info (i + 1)) s
    = (Ok (set_ocr applied (set_action no_text (new_page_info (i + 1)))), s') /\
    new_doc s' = new_doc s ++ (OcrPage i <$> temp_pages t) /\
    actions (report s') = actions (report s) ++ [PageNoText (i + 1); PageOcrApplied (i + 1) dpi] /\
    errors (report s') = errors (report s).
Proof.
  intros Htext Hocr. unfold ocr_attempt in Hocr. run_page. rewrite Htext. simpl.
  destruct (ocr_page_to_pdf_bytes w page dpi lang) as [b|e1]; simpl in Hocr; [|discriminate].
  destruct (open_stream (engine w) b) as [t'|e2]; simpl in Hocr; [|discriminate].
  destruct (temp_insert t'); simpl in Hocr; [|discriminate].
  injection Hocr as ->. eexists. split; [reflexivity|]. simpl.
  by rewrite <- app_assoc.
Qed.

Lemma successful_ocr_appends_every_page_witness :
  let w := world_of (working_engine [Ok (str "scan"); Ok []]) (document_of [Ok scanned_page]) in
  exists s',
    insert_page w true 300 "eng" 0 scanned_page (new_page_info (0 + 1)) empty_state
    = (Ok (set_ocr applied (set_action no_text (new_page_info (0 + 1)))), s') /\
    new_doc s' = new_doc empty_state ++ [OcrPage 0 (Ok (str "scan")); OcrPage 0 (Ok [])] /\
    actions (report s')
    = actions (report empty_state) ++ [PageNoText (0 + 1); PageOcrApplied (0 + 1) 300] /\
    errors (report s') = errors (report empty_state).
Proof.
  apply (successful_ocr_appends_every_page
           (world_of (working_engine [Ok (str "scan"); Ok []]) (document_of [Ok scanned_page]))
           300 "eng" 0 scanned_page empty_state
           {| temp_pages := [Ok (str "scan"); Ok []]; temp_insert := Ok tt |});
    reflexivity.
Defined.

(** X7.  With OCR off, a page without text goes in as an image: when
    rasterising, creating the page, encoding and placing the image all go
    through, exactly one page carrying the image is appended and the entry
    says [image_inserted]; otherwise the entry carries [image_error], an
    error is logged, and the run goes on.  A failure before [new_page]
    returns appends nothing; a failure after it leaves the empty page. *)
Theorem page_without_text_goes_in_as_image w dpi lang i page s :
  page_has_text page = Ok false ->
  exists info s',
    insert_page w false dpi lang i page (new_page_info (i + 1)) s = (Ok info, s') /\
    ocr info = None /\
    match image_answers w page dpi with
    | Inserted pix png =>
        new_doc s' = new_doc s ++ [NewPage i (pix_width pix) (pix_height pix) (Some png)] /\
        image_inserted info = true /\ image_error info = None /\
        errors (report s') = errors (report s)
    | FailedBeforePage e =>
        new_doc s' = new_doc s /\
        image_inserted info = false /\ image_error info = Some e /\
        errors (report s') = errors (report s) ++ [PageImageFailed (i + 1) e]
    | FailedAfterPage pix e =>
        new_doc s' = new_doc s ++ [NewPage i (pix_width pix) (pix_height pix) None] /\
        image_inserted info = false /\ image_error info = Some e /\
        errors (report s') = errors (report s) ++ [PageImageFailed (i + 1) e]
    end.
Proof.
  intros Htext. unfold image_answers. run_page. rewrite Htext. simpl.
  repeat case_match; simplify_eq/=;
    eexists _, _; (split; [reflexivity|]); simpl; rewrite ?place_image_snoc;
    by repeat split.
Qed.

Lemma page_without_text_goes_in_as_image_witness :
  let w := world_of engine_rejecting_images (document_of [Ok scanned_page]) in
  page_has_text scanned_page = Ok false /\
  exists info s',
    insert_page w false 300 "eng" 0 scanned_page (new_page_info (0 + 1)) empty_state
    = (Ok info, s') /\
    ocr info = None /\
    new_doc s' = new_doc empty_state ++ [NewPage 0 2480 3508 None] /\
    image_inserted info = false /\ image_error info = Some "cannot embed image" /\
    errors (report s') = errors (report empty_state) ++ [PageImageFailed (0 + 1) "cannot embed image"].
Proof.
  split; [reflexivity|].
  apply (page_without_text_goes_in_as_image
           (world_of engine_rejecting_images (document_of [Ok scanned_page]))
           300 "eng" 0 scanned_page empty_state).
  reflexivity.
Defined.

(** X8.  When the text of the page the pruning step loads can be
    extracted, the step deletes that page exactly when the text is empty
    once trimmed; it then flags the entry [removed_blank] and logs the
    removal.  A page with any other text stays, and nothing is logged. *)
Theorem prune_deletes_exactly_blank_pages w use_ocr dpi lang i page s info s1 q t :
  insert_page w use_ocr dpi lang i page (new_page_info (i + 1)) s = (Ok info, s1) ->
  last (new_doc s1) = Some q ->
  out_get_text q = Ok t ->
  exists s',
    process_page w use_ocr dpi true lang i (Ok page) s = (Ok tt, s') /\
    errors (report s') = errors (report s1) /\
    match strip t with
    | [] =>
        new_doc s' = removelast (new_doc s1) /\
        pages (report s') = pages (report s1) ++ [(i + 1, set_removed_blank info)] /\
        actions (report s') = actions (report s1) ++ [PageRemovedBlank (i + 1)]
    | _ :: _ =>
        new_doc s' = new_doc s1 /\
        pages (report s') = pages (report s1) ++ [(i + 1, info)] /\
        actions (report s') = actions (report s1)
    end.
Proof.
  intros Hins Hlast Htext.
  unfold process_page, page_body, page_outcome.
  rewrite run_try_catch, !run_bind. unfold call at 1. rewrite run_bind, Hins.
  assert (str_or t [] = t) as Hor by (by destruct t).
  run_page. rewrite Hlast, Htext, Hor.
  destruct (strip t) as [|c r]; simpl.
  - destruct (new_doc s1) as [|q0 l] eqn:Ed; [done|].
    eexists. split; [reflexivity|]. simpl. by rewrite Ed.
  - eexists. split; [reflexivity|]. by repeat split.
Qed.

Lemma prune_deletes_exactly_blank_pages_witness :
  let w := world_of (working_engine [Ok (str "  ")]) (document_of [Ok scanned_page]) in
  let info := set_ocr applied (set_action no_text (new_page_info (0 + 1))) in
  let s1 := (insert_page w true 300 "eng" 0 scanned_page (new_page_info (0 + 1))
               empty_state).2 in
  last (new_doc s1) = Some (OcrPage 0 (Ok (str "  "))) /\
  exists s',
    process_page w true 300 true "eng" 0 (Ok scanned_page) empty_state = (Ok tt, s') /\
    errors (report s') = errors (report s1) /\
    new_doc s' = removelast (new_doc s1) /\
    pages (report s') = pages (report s1) ++ [(0 + 1, set_removed_blank info)] /\
    actions (report s') = actions (report s1) ++ [PageRemovedBlank (0 + 1)].
Proof.
  intros w info s1. split; [reflexivity|].
  apply (prune_deletes_exactly_blank_pages w true 300 "eng" 0 scanned_page empty_state
           info s1 (OcrPage 0 (Ok (str "  "))) (str "  ")); reflexivity.
Defined.

(** ** The resave *)


(** ** Extracting the embedded images *)

Lemma extract_page_images_saved w doc out_dir i image_list n saved s acc' s' :
  extract_page_images w doc out_dir i image_list (n, saved) s = (Ok acc', s') ->
  exists new,
    acc' = (n + length image_list, saved ++ new) /\
    image_index <$> new = Some <$> seq n (length image_list) /\
    (disk s').*1 = (disk s).*1 ++ new.
Proof.
  revert n saved s. induction image_list as [|xref rest IH]; intros n saved s; simpl.
  - intros [= <- <-]. exists []. by rewrite Nat.add_0_r, !app_nil_r.
  - rewrite run_bind. unfold call at 1.
    destruct (extract_image doc xref) as [[image_bytes ext]|e]; [|discriminate].
    rewrite run_bind. unfold call at 1.
    destruct (write_file w _ image_bytes) as [[]|e]; [|discriminate].
    rewrite !run_bind. simpl. intros H. apply IH in H as (new & -> & Hidx & Hdisk).
    exists (ImageFile out_dir (i + 1) n (default "png" ext) :: new).
    split; [f_equal; [lia|by rewrite <- app_assoc]|]. split.
    + by rewrite fmap_cons, Hidx.
    + rewrite Hdisk. simpl. by rewrite fmap_app, <- app_assoc.
Qed.

Lemma extract_images_loop_saved w doc out_dir slots i n saved s acc' s' :
  extract_images_loop w doc out_dir i slots (n, saved) s = (Ok acc', s') ->
  exists ls new,
    image_lists slots = Ok ls /\
    acc' = (n + length (concat ls), saved ++ new) /\
    image_index <$> new = Some <$> seq n (length (concat ls)) /\
    (disk s').*1 = (disk s).*1 ++ new.
Proof.
  revert i n saved s. induction slots as [|slot rest IH]; intros i n saved s; simpl.
  - intros [= <- <-]. exists [], []. by rewrite Nat.add_0_r, !app_nil_r.
  - rewrite run_bind. unfold call at 1. destruct slot as [page|e]; [|discriminate].
    rewrite run_bind. unfold call at 1. simpl.
    destruct (get_images page) as [l|e]; [|discriminate]. rewrite run_bind. simpl.
    destruct (extract_page_images w doc out_dir i l (n, saved) s) as [[acc1|e] s1] eqn:E1;
      [|discriminate].
    apply extract_page_images_saved in E1 as (new1 & -> & Hidx1 & Hdisk1).
    intros H. apply IH in H as (ls & new2 & -> & -> & Hidx2 & Hdisk2).
    exists (l :: ls), (new1 ++ new2). simpl. rewrite length_app.
    split; [done|]. split; [f_equal; [lia|by rewrite <- app_assoc]|]. split.
    + by rewrite fmap_app, Hidx1, Hidx2, seq_app, fmap_app.
    + by rewrite Hdisk2, Hdisk1, <- app_assoc.
Qed.

(** X10.  When [extract_images_from_doc] returns, every page was loaded
    and listed its images; one file was written per image, in order; the
    files carry the image indices 0, 1, 2, ... counted across pages, so no
    two of them have the same name; the list returned is the list of
    files written; and the last action logged is their number. *)
Theorem extracted_images_are_numbered_across_pages w doc out_dir s saved s' :
  extract_images_from_doc w doc out_dir s = (Ok saved, s') ->
  exists ls,
    image_lists (doc_pages doc) = Ok ls /\
    image_index <$> saved = Some <$> seq 0 (length (concat ls)) /\
    NoDup saved /\
    (disk s').*1 = (disk s).*1 ++ saved /\
    last (actions (report s')) = Some (TotalExtracted (length saved)).
Proof.
  unfold extract_images_from_doc. rewrite run_bind. unfold call at 1.
  destruct (mkdir w out_dir) as [[]|e]; [|discriminate]. rewrite !run_bind. simpl.
  rewrite run_bind.
  match goal with
  | |- context [extract_images_loop w doc out_dir 0 (doc_pages doc) (0, []) ?s0] =>
      destruct (extract_images_loop w doc out_dir 0 (doc_pages doc) (0, []) s0)
        as [[acc|e] s1] eqn:E; [|discriminate]
  end.
  apply extract_images_loop_saved in E as (ls & new & Hls & -> & Hidx & Hdisk).
  simpl. intros [= <- <-]. exists ls. split; [done|]. split; [done|]. split.
  - apply (NoDup_fmap_1 image_index). rewrite Hidx.
    apply NoDup_fmap_2; [intros ?? [=]; done|]. apply NoDup_ListNoDup, seq_NoDup.
  - split; [done|]. simpl. apply last_snoc.
Qed.

Lemma extracted_images_are_numbered_across_pages_witness :
  let w := world_of engine_without_ocr illustrated_document in
  let r := extract_images_from_doc w illustrated_document (PathOf "images") empty_state in
  r.1 = Ok [ImageFile (PathOf "images") 1 0 "jpeg"; ImageFile (PathOf "images") 1 1 "png";
            ImageFile (PathOf "images") 2 2 "jpeg"] /\
  exists ls,
    image_lists (doc_pages illustrated_document) = Ok ls /\
    image_index <$> [ImageFile (PathOf "images") 1 0 "jpeg";
                     ImageFile (PathOf "images") 1 1 "png";
                     ImageFile (PathOf "images") 2 2 "jpeg"]
    = Some <$> seq 0 (length (concat ls)) /\
    NoDup [ImageFile (PathOf "images") 1 0 "jpeg"; ImageFile (PathOf "images") 1 1 "png";
           ImageFile (PathOf "images") 2 2 "jpeg"] /\
    (disk r.2).*1 = (disk empty_state).*1 ++
      [ImageFile (PathOf "images") 1 0 "jpeg"; ImageFile (PathOf "images") 1 1 "png";
       ImageFile (PathOf "images") 2 2 "jpeg"] /\
    last (actions (report r.2)) = Some (TotalExtracted 3).
Proof.
  intros w r. split; [reflexivity|].
  apply (extracted_images_are_numbered_across_pages w illustrated_document (PathOf "images")
           empty_state
           [ImageFile (PathOf "images") 1 0 "jpeg"; ImageFile (PathOf "images") 1 1 "png";
            ImageFile (PathOf "images") 2 2 "jpeg"] r.2).
  reflexivity.
Defined.

(** ** The run as a whole, again *)

Lemma backup_stage w inp s :
  let stage := try_catch (backup_file w inp;; mret tt)
                 (fun e => add_error (BackupFailed e)) in
  exists s', stage s = (Ok tt, s') /\ log_extends s s' /\
             new_doc s' = new_doc s /\ out_meta s' = out_meta s /\
             pages (report s') = pages (report s).
Proof.
  intros stage.
  assert (keeps log_extends stage) as Hlog
    by (unfold stage, backup_file; keeps_walk; log_prim).
  specialize (Hlog s). revert Hlog.
  unfold stage. rewrite backup_stage_run.
  destruct (backup_attempt w inp); simpl; intros Hlog; eexists; (split; [reflexivity|]); done.
Qed.

(** X11.  Whenever the input exists, lines 336-337 give the two paths and
    the report can be written, the file at the report path is the last
    file [main] writes, and it is complete: it names the input, and it
    holds every error and every page entry of the final report and every
    action but the one that records the flush itself. *)
Theorem flushed_report_is_complete w args out rp :
  let inp := PathOf (arg_input args) in
  path_exists w inp = true ->
  output_path w args = Ok out ->
  report_path w args = Ok rp ->
  write_json w rp = Ok tt ->
  exists s r,
    main w args = Ran (Ok tt) s /\
    last (disk s) = Some (rp, ReportJson r) /\
    input_path r = inp /\
    actions (report s) = actions r ++ [SavedReport rp] /\
    errors (report s) = errors r /\
    pages (report s) = pages r.
Proof.
  intros inp Hexists Hout Hrp Hwrite. rewrite (main_run w args out rp Hexists Hout Hrp).
  unfold run_repair. fold inp. rewrite run_bind.
  destruct (backup_stage w inp (initial_state args)) as (s1 & -> & Hl1 & _).
  destruct (repair_pipeline_stages w args out rp s1)
    as (s2 & s3 & s4 & -> & _ & Hl2 & _ & Hl3 & E4).
  rewrite report_save_run, Hwrite in E4. injection E4 as <-.
  eexists _, (report s3). split; [reflexivity|]. simpl. rewrite last_snoc.
  split; [done|]. split; [|done].
  destruct Hl1 as (H1 & _), Hl2 as (H2 & _), Hl3 as (H3 & _). by rewrite H3, H2, H1.
Qed.

Lemma flushed_report_is_complete_witness :
  let w := world_of (working_engine [Ok (str "scan")])
             (document_of [Ok (text_page hello_line); Ok scanned_page]) in
  let rp := ReportOf (PathOf "input.pdf") in
  exists s r,
    main w sample_args = Ran (Ok tt) s /\
    last (disk s) = Some (rp, ReportJson r) /\
    input_path r = PathOf "input.pdf" /\
    actions (report s) = actions r ++ [SavedReport rp] /\
    errors (report s) = errors r /\
    pages (report s) = pages r.
Proof.
  apply (flushed_report_is_complete
           (world_of (working_engine [Ok (str "scan")])
              (document_of [Ok (text_page hello_line); Ok scanned_page]))
           sample_args (Repaired (PathOf "input.pdf")) (ReportOf (PathOf "input.pdf")));
    reflexivity.
Defined.

(** X12.  On a run past lines 336-337: when the input the rebuild is to
    work on cannot be opened, the rebuild stops there: no page is
    processed, no page entry is recorded, no output document is built or
    written, and the last error of the report is the failed repair,
    carrying the exception of the open.  [main] still ends normally,
    after trying to flush the report. *)
Theorem unreadable_source_stops_the_rebuild w args out rp e :
  let inp := PathOf (arg_input args) in
  path_exists w inp = true ->
  output_path w args = Ok out ->
  report_path w args = Ok rp ->
  fitz_open w (working_input w inp) = Raise e ->
  exists s,
    main w args = Ran (Ok tt) s /\
    pages (report s) = [] /\
    new_doc s = [] /\
    out_meta s = None /\
    last (errors (report s)) = Some (OverallFailed e) /\
    last (actions (report s))
    = Some (match write_json w rp with
            | Ok _ => SavedReport rp
            | Raise _ => OpeningSource (working_input w inp)
            end).
Proof.
  intros inp Hexists Hout Hrp Hopen. rewrite (main_run w args out rp Hexists Hout Hrp).
  cut (exists s,
         run_repair w args out rp (initial_state args) = (Ok tt, s) /\
         pages (report s) = [] /\ new_doc s = [] /\ out_meta s = None /\
         last (errors (report s)) = Some (OverallFailed e) /\
         last (actions (report s))
         = Some (match write_json w rp with
                 | Ok _ => SavedReport rp
                 | Raise _ => OpeningSource (working_input w inp)
                 end)).
  { intros (s & -> & H). by exists s. }
  unfold run_repair. fold inp. rewrite run_bind.
  destruct (backup_stage w inp (initial_state args)) as (s1 & -> & _ & Hd1 & Hm1 & Hp1).
  unfold repair_pipeline. fold inp. rewrite run_bind.
  destruct (resave_stage w inp s1) as (s2 & -> & _ & _ & Hd2 & Hm2 & Hp2).
  rewrite run_bind, run_try_catch. cbv zeta. unfold build_repaired_pdf.
  rewrite run_bind. simpl. rewrite run_bind. unfold call at 1. rewrite Hopen.
  unfold add_error, modify. cbv beta iota. rewrite run_try_catch, report_save_run.
  destruct (write_json w rp); eexists; (split; [reflexivity|]); simpl;
    rewrite ?last_snoc, Hd2, Hd1, Hm2, Hm1, Hp2, Hp1; by repeat split.
Qed.

Lemma unreadable_source_stops_the_rebuild_witness :
  let w := world_without_documents (working_engine [Ok (str "scan")]) in
  let rp := ReportOf (PathOf "input.pdf") in
  exists s,
    main w sample_args = Ran (Ok tt) s /\
    pages (report s) = [] /\
    new_doc s = [] /\
    out_meta s = None /\
    last (errors (report s)) = Some (OverallFailed "cannot open broken document") /\
    last (actions (report s)) = Some (SavedReport rp).
Proof.
  apply (unreadable_source_stops_the_rebuild
           (world_without_documents (working_engine [Ok (str "scan")]))
           sample_args (Repaired (PathOf "input.pdf")) (ReportOf (PathOf "input.pdf"))
           "cannot open broken document"); reflexivity.
Defined.

(** ** Metadata, again *)

(** X13.  Whatever the metadata of the source, the merged metadata has a
    non-empty title, author and creator; its producer is empty exactly
    when the source has neither a producer nor a creator; and its subject
    and keywords are those of the source, empty when the source has
    none. *)
Theorem merged_metadata_defaults w meta input :
  let fixed := meta_fixed w meta input in
  (forall k, k ∈ ["title"; "author"; "creator"] ->
             exists v, fixed !! k = Some v /\ v <> []) /\
  (fixed !! "producer" = Some [] <->
   original meta "producer" = [] /\ original meta "creator" = []) /\
  fixed !! "subject" = Some (original meta "subject") /\
  fixed !! "keywords" = Some (original meta "keywords").
Proof.
  intros fixed. unfold fixed. split; [|split; [|split]].
  - intros k Hk. rewrite meta_fixed_lookup.
    rewrite !elem_of_cons, elem_of_nil in Hk.
    destruct Hk as [->|[->|[->|[]]]]; simpl; eexists; (split; [reflexivity|]).
    + destruct (original meta "title"); simpl; [|done]. by destruct (stem w input).
    + by destruct (original meta "author").
    + by destruct (original meta "creator"), (original meta "producer").
  - rewrite meta_fixed_lookup. simpl.
    destruct (original meta "producer"), (original meta "creator"); simpl;
      split; (done || by intros []).
  - rewrite meta_fixed_lookup. simpl. by destruct (original meta "subject").
  - rewrite meta_fixed_lookup. simpl. by destruct (original meta "keywords").
Qed.

(** ** What ends a rebuild *)

(** X15.  [build_repaired_pdf] raises only when the source cannot be
    opened or the final save fails, and then with that very exception:
    every other failure (image extraction, a page, OCR, an image
    insertion, the metadata) is absorbed on the way. *)
Theorem only_open_and_save_are_fatal
    w input output use_ocr dpi (extract : bool) out_dir remove_blank lang s e s' :
  build_repaired_pdf w input output use_ocr dpi extract out_dir remove_blank lang s
  = (Raise e, s') ->
  fitz_open w input = Raise e \/
  (final_save w (new_doc s') output = Raise e /\
   last (errors (report s')) = Some (SaveFinalFailed e)).
Proof.
  rewrite build_repaired_pdf_run. cbv zeta.
  destruct (fitz_open w input) as [doc|e0]; [|intros [= -> _]; by left].
  set (s2 := (add_action _ (add_action _ s).2).2).
  assert (returns (if extract
                   then try_catch (extract_images_from_doc w doc out_dir;; mret tt)
                                  (fun e => add_error (ImageExtractionFailed e))
                   else mret tt)) as Hret by (destruct extract; returns_walk).
  destruct (Hret s2) as ([] & s3 & ->).
  destruct (rebuild_reaches_final_save w doc input output use_ocr dpi remove_blank lang s3)
    as (s5 & ->).
  rewrite save_final_run.
  destruct (final_save w (new_doc s5) output) as [[]|e1] eqn:E; [discriminate|].
  intros [= -> <-]. right. simpl. by rewrite last_snoc.
Qed.

Lemma only_open_and_save_are_fatal_witness :
  let w := world_of engine_failing_save (document_of [Ok scanned_page]) in
  let r := build_repaired_pdf w (PathOf "input.pdf") (PathOf "out.pdf") true 300 false
             (PathOf ".") false "eng" empty_state in
  r.1 = Raise "disk full" /\
  (fitz_open w (PathOf "input.pdf") = Raise "disk full" \/
   (final_save w (new_doc r.2) (PathOf "out.pdf") = Raise "disk full" /\
    last (errors (report r.2)) = Some (SaveFinalFailed "disk full"))).
Proof.
  intros w r. split; [reflexivity|].
  apply (only_open_and_save_are_fatal w (PathOf "input.pdf") (PathOf "out.pdf") true 300 false
           (PathOf ".") false "eng" empty_state "disk full" r.2).
  reflexivity.
Defined.

(** X16.  When [build_repaired_pdf] returns, the output file is the last
    file it wrote, and it holds the document as built, with the metadata
    it ended with; the last action logged says so. *)
Theorem returned_rebuild_has_written_the_document
    w input output use_ocr dpi (extract : bool) out_dir remove_blank lang s s' :
  build_repaired_pdf w input output use_ocr dpi extract out_dir remove_blank lang s
  = (Ok tt, s') ->
  last (disk s') = Some (output, OutputPdf (new_doc s') (out_meta s')) /\
  last (actions (report s')) = Some (SavedFinal output) /\
  final_save w (new_doc s') output = Ok tt.
Proof.
  rewrite build_repaired_pdf_run. cbv zeta.
  destruct (fitz_open w input) as [doc|e0]; [|discriminate].
  set (s2 := (add_action _ (add_action _ s).2).2).
  assert (returns (if extract
                   then try_catch (extract_images_from_doc w doc out_dir;; mret tt)
                                  (fun e => add_error (ImageExtractionFailed e))
                   else mret tt)) as Hret by (destruct extract; returns_walk).
  destruct (Hret s2) as ([] & s3 & ->).
  destruct (rebuild_reaches_final_save w doc input output use_ocr dpi remove_blank lang s3)
    as (s5 & ->).
  rewrite save_final_run.
  destruct (final_save w (new_doc s5) output) as [[]|e1] eqn:E; [|discriminate].
  intros [= <-]. simpl. by rewrite !last_snoc.
Qed.

Lemma returned_rebuild_has_written_the_document_witness :
  let w := world_of (working_engine [Ok (str "scan")])
             (document_of [Ok (text_page hello_line); Ok scanned_page]) in
  let r := build_repaired_pdf w (PathOf "input.pdf") (PathOf "out.pdf") true 300 false
             (PathOf ".") false "eng" empty_state in
  r.1 = Ok tt /\
  origin <$> new_doc r.2 = [0; 1] /\
  last (disk r.2) = Some (PathOf "out.pdf", OutputPdf (new_doc r.2) (out_meta r.2)) /\
  last (actions (report r.2)) = Some (SavedFinal (PathOf "out.pdf")) /\
  final_save w (new_doc r.2) (PathOf "out.pdf") = Ok tt.
Proof.
  intros w r. split; [reflexivity|]. split; [reflexivity|].
  apply (returned_rebuild_has_written_the_document w (PathOf "input.pdf") (PathOf "out.pdf")
           true 300 false (PathOf ".") false "eng" empty_state r.2).
  reflexivity.
Defined.

(** ** The backup comes first *)

(** X17.  When the input exists and has a name, and the copy goes
    through, the backup is the first file of the run and the first action
    of the report: nothing is written, and nothing else is logged, before
    the original is safe. *)
Theorem backup_is_made_before_anything_else w args :
  let inp := PathOf (arg_input args) in
  let dst := BackupOf inp (utc_stamp w) in
  path_exists w inp = true ->
  empty_name w inp = None ->
  copy2 w inp dst = Ok tt ->
  exists s,
    main w args = Ran (Ok tt) s /\
    head (disk s) = Some (dst, CopyOf inp) /\
    head (actions (report s)) = Some (BackedUp dst).
Proof.
  intros inp dst Hexists Hname Hcopy.
  destruct (named_input_has_paths w args Hname) as (out & rp & Hout & Hrp).
  rewrite (main_run w args out rp Hexists Hout Hrp).
  cut (exists s,
         run_repair w args out rp (initial_state args) = (Ok tt, s) /\
         head (disk s) = Some (dst, CopyOf inp) /\
         head (actions (report s)) = Some (BackedUp dst)).
  { intros (s & -> & H). by exists s. }
  unfold run_repair. fold inp.
  rewrite run_bind, backup_stage_run, (backup_attempt_named w inp Hname). fold dst.
  rewrite Hcopy. cbv zeta. fold dst.
  set (s1 := (add_action (BackedUp dst) _).2).
  destruct (repair_pipeline_stages w args out rp s1)
    as (s2 & s3 & s4 & -> & _ & Hl2 & _ & Hl3 & E4).
  exists s4. split; [done|].
  pose proof (report_save_log w rp s3) as Hl4. rewrite E4 in Hl4.
  assert (log_extends s1 s4) as (_ & Hacts & _ & _ & Hdisk)
    by (etrans; [exact Hl2|]; etrans; [exact Hl3|exact Hl4]).
  split.
  - by apply (prefix_keeps_head _ (disk s1)).
  - by apply (prefix_keeps_head _ (actions (report s1))).
Qed.

Lemma backup_is_made_before_anything_else_witness :
  let w := world_of (working_engine [Ok (str "scan")])
             (document_of [Ok (text_page hello_line); Ok scanned_page]) in
  let dst := BackupOf (PathOf "input.pdf") "20240101000000" in
  exists s,
    main w sample_args = Ran (Ok tt) s /\
    head (disk s) = Some (dst, CopyOf (PathOf "input.pdf")) /\
    head (actions (report s)) = Some (BackedUp dst).
Proof.
  apply (backup_is_made_before_anything_else
           (world_of (working_engine [Ok (str "scan")])
              (document_of [Ok (text_page hello_line); Ok scanned_page]))
           sample_args); reflexivity.
Defined.

(** ** Source order *)

(** X18.  Starting from the empty output document, the pages of the
    output document are, after the page loop, in the order of the source
    pages they were derived from, whatever was pruned, and each is derived
    from one of the pages processed. *)
Theorem output_pages_follow_source_order w use_ocr dpi remove_blank lang slots s :
  new_doc s = [] ->
  let d := new_doc (page_loop w use_ocr dpi remove_blank lang 0 slots s).2 in
  (forall a b qa qb, a < b -> d !! a = Some qa -> d !! b = Some qb ->
                     origin qa <= origin qb) /\
  Forall (fun q => origin q < length slots) d.
Proof.
  intros E d.
  apply (page_loop_ordered w use_ocr dpi remove_blank lang slots 0 s).
  rewrite E. split; [|constructor]. intros a b qa qb _ Ha. by rewrite lookup_nil in Ha.
Qed.

Lemma output_pages_follow_source_order_witness :
  let slots := [Ok scanned_page; Ok (text_page hello_line); Ok scanned_page;
                Ok (text_page hello_line)] in
  let w := world_of (working_engine [Ok (str "scan"); Ok []]) (document_of slots) in
  let d := new_doc (page_loop w true 300 true "eng" 0 slots empty_state).2 in
  origin <$> d = [0; 1; 2; 3] /\
  (forall a b qa qb, a < b -> d !! a = Some qa -> d !! b = Some qb ->
                     origin qa <= origin qb) /\
  Forall (fun q => origin q < length slots) d.
Proof.
  intros slots w d. split; [reflexivity|].
  apply (output_pages_follow_source_order w true 300 true "eng" slots empty_state).
  reflexivity.
Defined.

(** ** Without Tesseract *)

Lemma insert_page_without_tesseract w dpi lang i page info0 s :
  pytesseract (engine w) = false ->
  exists qs,
    new_doc (insert_page w true dpi lang i page info0 s).2 = new_doc s ++ qs /\
    Forall (fun q => is_ocr_page q = false) qs /\
    forall info, (insert_page w true dpi lang i page info0 s).1 = Ok info ->
                 action info = Some no_text ->
                 ocr info = Some (failed "pytesseract not available for OCR fallback").
Proof.
  intros H. run_page. unfold ocr_page_to_pdf_bytes, with_new_doc, with_report. rewrite H. simpl.
  repeat case_match; simplify_eq/=; rewrite ?place_image_snoc;
    first [ exists []; split; [by rewrite app_nil_r|]; split; [constructor|];
            intros; by simplify_eq/=
          | eexists [_]; split; [reflexivity|]; split; [by repeat constructor|];
            intros; by simplify_eq/= ].
Qed.

Lemma process_page_outcome_entry w use_ocr dpi remove_blank lang i slot s :
  let s' := (process_page w use_ocr dpi remove_blank lang i slot s).2 in
  pages (report s') = pages (report s) \/
  exists info s1,
    page_outcome w use_ocr dpi remove_blank lang i slot s = (Ok info, s1) /\
    pages (report s') = pages (report s) ++ [(i + 1, info)].
Proof.
  unfold process_page, page_body. simpl. rewrite run_try_catch, run_bind.
  destruct (page_outcome_quiet w use_ocr dpi remove_blank lang i slot s) as [Hp _].
  destruct (page_outcome _ _ _ _ _ _ _ s) as [[info|e] s1] eqn:E; simpl in *.
  - right. exists info, s1. by rewrite Hp.
  - by left.
Qed.

Lemma process_page_without_tesseract w dpi remove_blank lang i slot s :
  pytesseract (engine w) = false ->
  let P s := Forall (fun q => is_ocr_page q = false) (new_doc s) /\
             Forall (fun e : nat * PageInfo =>
                       action e.2 = Some no_text ->
                       ocr e.2 = Some (failed "pytesseract not available for OCR fallback"))
               (pages (report s)) in
  P s -> P (process_page w true dpi remove_blank lang i slot s).2.
Proof.
  intros Hno P [Hdoc Hentries]. split.
  - rewrite process_page_document. unfold page_outcome.
    rewrite run_bind. unfold call at 1. destruct slot as [page|e]; [|done].
    rewrite run_bind.
    destruct (insert_page_without_tesseract w dpi lang i page (new_page_info (i + 1)) s Hno)
      as (qs & Hqs & Hocr & _).
    assert (Forall (fun q => is_ocr_page q = false)
              (new_doc (insert_page w true dpi lang i page (new_page_info (i + 1)) s).2))
      as H1 by (rewrite Hqs; apply Forall_app; auto).
    destruct (insert_page _ _ _ _ _ _ _ s) as [[info|e] s1]; simpl in *; [|done].
    destruct remove_blank; [|done].
    destruct (prune_last_drops_at_most_last w i info s1) as [-> | ->];
      [done|by apply Forall_removelast].
  - destruct (process_page_outcome_entry w true dpi remove_blank lang i slot s)
      as [-> | (info & s1 & E & ->)]; [done|].
    apply Forall_app. split; [done|]. constructor; [|constructor]. simpl.
    revert E. unfold page_outcome. rewrite run_bind. unfold call at 1.
    destruct slot as [page|e]; [|discriminate]. rewrite run_bind.
    destruct (insert_page_without_tesseract w dpi lang i page (new_page_info (i + 1)) s Hno)
      as (qs & _ & _ & Hinfo).
    destruct (insert_page _ _ _ _ _ _ _ s) as [[info0|e] s0]; [|discriminate].
    specialize (Hinfo info0 eq_refl).
    destruct remove_blank.
    + intros [-> | ->]%prune_last_entry; [done|]. exact Hinfo.
    + by intros [= <- <-].
Qed.

(** X19.  When pytesseract could not be imported and OCR is asked for,
    the OCR of every page without text fails with the same message before
    anything is rendered: every entry of such a page records that failure,
    and the output document holds no page of Tesseract's; what such a page
    contributes is left to the image fallback. *)
Theorem without_tesseract_every_ocr_fails w dpi remove_blank lang slots i s :
  pytesseract (engine w) = false ->
  new_doc s = [] ->
  pages (report s) = [] ->
  let s' := (page_loop w true dpi remove_blank lang i slots s).2 in
  Forall (fun q => is_ocr_page q = false) (new_doc s') /\
  Forall (fun e : nat * PageInfo =>
            action e.2 = Some no_text ->
            ocr e.2 = Some (failed "pytesseract not available for OCR fallback"))
    (pages (report s')).
Proof.
  intros Hno Hd Hp.
  assert (Forall (fun q => is_ocr_page q = false) (new_doc s) /\
          Forall (fun e : nat * PageInfo =>
                    action e.2 = Some no_text ->
                    ocr e.2 = Some (failed "pytesseract not available for OCR fallback"))
            (pages (report s))) as H
    by (rewrite Hd, Hp; split; constructor).
  clear Hd Hp. revert i s H. induction slots as [|slot rest IH]; intros i s H; simpl; [done|].
  rewrite run_bind.
  pose proof (process_page_without_tesseract w dpi remove_blank lang i slot s Hno H) as H1.
  destruct (process_page_records w true dpi remove_blank lang i slot s) as (s1 & E & _).
  rewrite E in *. by apply IH.
Qed.

Lemma without_tesseract_every_ocr_fails_witness :
  let slots := [Ok (text_page hello_line); Ok scanned_page; Ok unrenderable_page] in
  let w := world_of engine_without_ocr (document_of slots) in
  let s' := (page_loop w true 300 false "eng" 0 slots empty_state).2 in
  (fun e => (e.1, fallback_image_inserted e.2)) <$> pages (report s')
  = [(1, false); (2, false); (3, false)] /\
  Forall (fun q => is_ocr_page q = false) (new_doc s') /\
  Forall (fun e : nat * PageInfo =>
            action e.2 = Some no_text ->
            ocr e.2 = Some (failed "pytesseract not available for OCR fallback"))
    (pages (report s')).
Proof.
  intros slots w s'. split; [reflexivity|].
  apply (without_tesseract_every_ocr_fails w 300 false "eng" slots 0 empty_state);
    reflexivity.
Defined.

(** ** How [main] ends *)


(** The current directory as the input, no path given: line 336 raises. *)
Example unnamed_input_crashes :
  main (world_of_unnamed_input (working_engine [])) unnamed_args
  = Crashed "PosixPath('.') has an empty name".
Proof. reflexivity. Qed.

(** The same input with both paths given: the backup fails at line 98 and
    is recorded; the resave raises at line 116, before its [try], so that
    no failed resave is recorded; the rebuild fails to open the input; the
    report is flushed. *)
Example unnamed_input_with_paths_runs :
  exists s,
    main (world_of_unnamed_input (working_engine [])) unnamed_args_with_paths = Ran (Ok tt) s /\
    errors (report s) = [BackupFailed "PosixPath('.') has an empty name";
                         OverallFailed "cannot open broken document"] /\
    actions (report s) = [AttemptingResave; ProceedingWithOriginal; OpeningSource (PathOf ".");
                          SavedReport (PathOf "report.json")].
Proof. eexists. split; [reflexivity|]. by split. Qed.
